(** * Projects page: visibility, membership and project creation

    A shallow embedding of [src/app/projects/page.tsx].  The page keeps three
    client-side caches (the project list, the organisation directory and a
    per-project membership map) next to a message buffer, a busy flag and the
    name input.  Its handlers are asynchronous: each one alternates state
    updates with requests to the relational store and resumes when the
    response arrives.

    The embedding follows that shape.  Handlers are terms of a small
    command language ([Async]) whose constructors are the state update, the
    suspended store request and the read of the effect's [cancelled] flag;
    an interpreter runs them against a model of the store, one response at a
    time, so that responses of different handlers can interleave. *)

From Stdlib Require Import ZArith Ascii String List Bool Sorted Permutation.
From stdpp Require Import gmap strings list.
Import ListNotations.

Local Open Scope string_scope.
Local Open Scope list_scope.

(** ** Strings as the page uses them

    A string is a sequence of 8-bit code units; code units above U+00FF are
    outside the model.  *)

(** Truthiness of a possibly missing string ([!x] is false exactly when [x]
    is a non-empty string). *)
Definition truthy (s : option string) : option string :=
  match s with
  | Some s => if String.eqb s "" then None else Some s
  | None => None
  end.

(** White space and line terminators removed by [String.prototype.trim],
    among the code units of the model: TAB, LF, VT, FF, CR, SP and NBSP. *)
Definition is_js_space (c : ascii) : bool :=
  let n := nat_of_ascii c in
  (Nat.leb 9 n && Nat.leb n 13) || Nat.eqb n 32 || Nat.eqb n 160.

Fixpoint trimStart (s : string) : string :=
  match s with
  | EmptyString => EmptyString
  | String c s' => if is_js_space c then trimStart s' else s
  end.

Fixpoint trimEnd (s : string) : string :=
  match s with
  | EmptyString => EmptyString
  | String c s' =>
      match trimEnd s' with
      | EmptyString => if is_js_space c then EmptyString else String c EmptyString
      | t => String c t
      end
  end.

Definition trim (s : string) : string := trimEnd (trimStart s).

(** A string of white space only (the empty string included). *)
Fixpoint whitespaceOnly (s : string) : bool :=
  match s with
  | EmptyString => true
  | String c s' => is_js_space c && whitespaceOnly s'
  end.

(** The line feed of the template literal that joins two messages. *)
Definition nl : string := String (ascii_of_nat 10) EmptyString.

(** ** Rows *)

Inductive Role : Type := admin | manager | contractor.

Definition Role_eqb (a b : Role) : bool :=
  match a, b with
  | admin, admin | manager, manager | contractor, contractor => true
  | _, _ => false
  end.

Module ProjectRow.
Record t : Type := mk
  { id : string;
    org_id : string;
    name : string;
    parent_id : option string;
    is_active : option bool }.
End ProjectRow.

Module ProfileRow.
Record t : Type := mk
  { id : string;
    full_name : option string;
    role : Role;
    is_active : option bool;
    manager_id : option string }.
End ProfileRow.

Module MemberRow.
Record t : Type := mk
  { id : string;
    project_id : string;
    profile_id : string;
    is_active : option bool }.
End MemberRow.

(** A row of the contractor query: the membership's [project_id] with the
    embedded project, which is null when the join finds none. *)
Module JoinedRow.
Record t : Type := mk
  { project_id : string;
    projects : option ProjectRow.t }.
End JoinedRow.

(** [x.is_active !== false]: only an explicit [false] is inactive. *)
Definition not_false (b : option bool) : bool :=
  match b with
  | Some false => false
  | _ => true
  end.

(** [.eq("is_active", true)] on a nullable column. *)
Definition is_true (b : option bool) : bool :=
  match b with
  | Some true => true
  | _ => false
  end.

(** ** The viewer, as the profile hook hands it to the page *)

(** Modelled from the spec: the profile hook ([lib/useProfile]) is not part
    of the page.  Of the profile it yields the page reads the organisation,
    which may be missing, and the role. *)
Record Profile : Type := mkProfile
  { org_id : option string;
    role : Role }.

(** [profile?.role === "admin" || profile?.role === "manager"] *)
Definition isAdminOrManager (profile : option Profile) : bool :=
  match profile with
  | Some p => Role_eqb (role p) admin || Role_eqb (role p) manager
  | None => false
  end.

(** ** Page state: the [useState] cells *)

Record PageState : Type := mkPageState
  { projects : list ProjectRow.t;
    orgProfiles : list ProfileRow.t;
    membersByProject : gmap string (list MemberRow.t);
    msg : string;
    busy : bool;
    newName : string }.

Definition setProjects (f : list ProjectRow.t -> list ProjectRow.t) (s : PageState) : PageState :=
  mkPageState (f (projects s)) (orgProfiles s) (membersByProject s) (msg s) (busy s) (newName s).

Definition setOrgProfiles (v : list ProfileRow.t) (s : PageState) : PageState :=
  mkPageState (projects s) v (membersByProject s) (msg s) (busy s) (newName s).

Definition setMembersByProject
    (f : gmap string (list MemberRow.t) -> gmap string (list MemberRow.t))
    (s : PageState) : PageState :=
  mkPageState (projects s) (orgProfiles s) (f (membersByProject s)) (msg s) (busy s) (newName s).

Definition setMsg (f : string -> string) (s : PageState) : PageState :=
  mkPageState (projects s) (orgProfiles s) (membersByProject s) (f (msg s)) (busy s) (newName s).

Definition setBusy (v : bool) (s : PageState) : PageState :=
  mkPageState (projects s) (orgProfiles s) (membersByProject s) (msg s) v (newName s).

Definition setNewName (v : string) (s : PageState) : PageState :=
  mkPageState (projects s) (orgProfiles s) (membersByProject s) (msg s) (busy s) v.

(** The initial values of the [useState] cells. *)
Definition initialState : PageState :=
  mkPageState [] [] ∅ "" false "".

(** ** Requests to the store *)

(** The requests the page can put to the store through the query builder.
    The builder also offers a row deletion; the page never issues it, and it
    is listed so that this can be stated. *)
Inductive Query : Type :=
| SelectProfiles (org : string)
| SelectProjects (org : string)
| SelectMemberProjects (uid : string)
| SelectMembers (projectId : string)
| InsertProject (org name : string) (active : bool)
| InsertMember (org : option string) (projectId profileId : string) (active : bool)
| UpdateMemberActive (memberId : string) (active : bool)
| DeleteMember (memberId : string).

(** The type of [data] in the response to a request. *)
Definition answer (q : Query) : Type :=
  match q with
  | SelectProfiles _ => list ProfileRow.t
  | SelectProjects _ => list ProjectRow.t
  | SelectMemberProjects _ => list JoinedRow.t
  | SelectMembers _ => list MemberRow.t
  | InsertProject _ _ _ => ProjectRow.t
  | InsertMember _ _ _ _ => unit
  | UpdateMemberActive _ _ => unit
  | DeleteMember _ => unit
  end.

(** A response [{ data, error }]: either data and no error, or an error with
    null data. *)
Inductive Response (R : Type) : Type :=
| Success (data : R)
| Failure (message : string).
Arguments Success {R} data.
Arguments Failure {R} message.

Definition data_of {R} (r : Response R) : option R :=
  match r with
  | Success d => Some d
  | Failure _ => None
  end.

Definition error_of {R} (r : Response R) : option string :=
  match r with
  | Success _ => None
  | Failure m => Some m
  end.

(** ** Asynchronous handlers *)

(** A handler is a sequence of state updates and awaited requests.
    [IfCancelled] reads the mutable [cancelled] variable that the visibility
    effect closes over. *)
Inductive Async : Type :=
| Return
| SetState (f : PageState -> PageState) (k : Async)
| IfCancelled (k : bool -> Async)
| Await (q : Query) (k : Response (answer q) -> Async).

Fixpoint andThen (p k : Async) : Async :=
  match p with
  | Return => k
  | SetState f p' => SetState f (andThen p' k)
  | IfCancelled p' => IfCancelled (fun c => andThen (p' c) k)
  | Await q p' => Await q (fun r => andThen (p' r) k)
  end.

Declare Scope async_scope.
Delimit Scope async_scope with async.
Bind Scope async_scope with Async.
Notation "f ;; k" := (SetState f k%async)
  (at level 100, right associativity) : async_scope.
Notation "'await' r <- q ;; k" := (Await q (fun r => k%async))
  (at level 100, r name, q at next level, right associativity) : async_scope.

(** [if (e) setMsg(...)]: an update that only happens when [e] is set. *)
Definition whenSome {A} (o : option A) (f : A -> PageState -> PageState) : PageState -> PageState :=
  match o with
  | Some a => f a
  | None => fun s => s
  end.

(** [(m) => (m ? `${m}\n${e}` : e)] *)
Definition appendMsg (e : string) (m : string) : string :=
  if String.eqb m "" then e else m ++ nl ++ e.

(** The body of the visibility effect once its guard has passed, with the
    values the closure captured. *)
Definition resolveVisibility (org uid : string) (privileged : bool) : Async :=
  (setMsg (fun _ => "") ;;
   await r <- SelectProfiles org ;;
   andThen
   (IfCancelled (fun cancelled =>
     if negb cancelled then
       whenSome (error_of r) (fun e => setMsg (fun _ => e)) ;;
       setOrgProfiles (default [] (data_of r)) ;;
       Return
     else Return))
   (if privileged then
     await r <- SelectProjects org ;;
     IfCancelled (fun cancelled =>
       if negb cancelled then
         whenSome (error_of r) (fun e => setMsg (appendMsg e)) ;;
         setProjects (fun _ => default [] (data_of r)) ;;
         Return
       else Return)
   else
     await r <- SelectMemberProjects uid ;;
     IfCancelled (fun cancelled =>
       if negb cancelled then
         whenSome (error_of r) (fun e => setMsg (appendMsg e)) ;;
         let list := omap JoinedRow.projects (default [] (data_of r)) in
         setProjects (fun _ => List.filter (fun p => not_false (ProjectRow.is_active p)) list) ;;
         Return
       else Return)))%async.

(** The effect: nothing is started (and no cleanup is registered) unless
    both [profile?.org_id] and [userId] are truthy. *)
Definition visibilityEffect (profile : option Profile) (userId : option string) : option Async :=
  match truthy (profile ≫= org_id), truthy userId with
  | Some org, Some uid => Some (resolveVisibility org uid (isAdminOrManager profile))
  | _, _ => None
  end.

Definition loadMembers (projectId : string) : Async :=
  (setMsg (fun _ => "") ;;
   await r <- SelectMembers projectId ;;
   match error_of r with
   | Some e => setMsg (fun _ => e) ;; Return
   | None =>
       setMembersByProject (fun prev => <[projectId := default [] (data_of r)]> prev) ;;
       Return
   end)%async.

Definition addMember (profile : option Profile) (projectId profileId : string) : Async :=
  (setMsg (fun _ => "") ;;
   if String.eqb profileId "" then Return
   else
     await r <- InsertMember (profile ≫= org_id) projectId profileId true ;;
     match error_of r with
     | Some e => setMsg (fun _ => e) ;; Return
     | None => loadMembers projectId
     end)%async.

Definition removeMember (projectId memberId : string) : Async :=
  (setMsg (fun _ => "") ;;
   await r <- UpdateMemberActive memberId false ;;
   match error_of r with
   | Some e => setMsg (fun _ => e) ;; Return
   | None => loadMembers projectId
   end)%async.

(** ** Sorting *)

Section Sort.
Context {A : Type} (le : A -> A -> bool).

Fixpoint insert_by (x : A) (l : list A) : list A :=
  match l with
  | [] => [x]
  | y :: l' => if le x y then x :: l else y :: insert_by x l'
  end.

(** A stable sort: an element stays in front of the later elements it is
    not greater than. *)
Fixpoint sort_by (l : list A) : list A :=
  match l with
  | [] => []
  | x :: l' => insert_by x (sort_by l')
  end.
End Sort.

(** [Array.prototype.sort(cmp)] is stable and, for a consistent comparator,
    returns the elements in ascending order: [a] goes before [b] unless
    [cmp(a, b) > 0]. *)
Definition js_sort {A} (cmp : A -> A -> Z) (l : list A) : list A :=
  sort_by (fun a b => (cmp a b <=? 0)%Z) l.

(** ** The host: orderings that the page takes from outside *)

(** Modelled from the spec: neither the store's collation nor the locale of
    the browser is part of the page.  [name_le] is the store's ascending
    order on project names, [profile_le] its order by role and then full
    name, and [localeCompare] is [String.prototype.localeCompare]. *)
Class Host : Type :=
  { name_le : string -> string -> bool;
    profile_le : ProfileRow.t -> ProfileRow.t -> bool;
    localeCompare : string -> string -> Z }.

(** ** The store *)

(** Modelled from the spec: the relational store behind the query builder
    ([lib/supabaseBrowser] only creates the client).  It holds the three
    tables the page reads and writes; a select filters by equality and
    orders the rows, an insert appends a row and returns it, an update
    patches the matching rows. *)
Module Store.
Record t : Type := mk
  { profiles : list (string * ProfileRow.t);
    projects : list ProjectRow.t;
    project_members : list (option string * MemberRow.t) }.
End Store.

(** The patch [{ is_active }] applied to a membership row. *)
Definition patch_is_active (active : bool) (m : MemberRow.t) : MemberRow.t :=
  MemberRow.mk (MemberRow.id m) (MemberRow.project_id m) (MemberRow.profile_id m) (Some active).

Section WithHost.
Context {host : Host}.

(** [.eq("org_id", org).eq("is_active", true).order("role").order("full_name")] *)
Definition select_profiles (org : string) (s : Store.t) : list ProfileRow.t :=
  sort_by profile_le
    (map snd
       (List.filter (fun r => String.eqb (fst r) org && is_true (ProfileRow.is_active (snd r)))
          (Store.profiles s))).

(** [.eq("org_id", org).order("name", { ascending: true })] *)
Definition select_projects (org : string) (s : Store.t) : list ProjectRow.t :=
  sort_by (fun a b => name_le (ProjectRow.name a) (ProjectRow.name b))
    (List.filter (fun p => String.eqb (ProjectRow.org_id p) org) (Store.projects s)).

(** The embedded resource [projects(...)]: the row the foreign key
    [project_id] points to. *)
Definition join_project (s : Store.t) (m : MemberRow.t) : JoinedRow.t :=
  JoinedRow.mk (MemberRow.project_id m)
    (List.find (fun p => String.eqb (ProjectRow.id p) (MemberRow.project_id m)) (Store.projects s)).

(** [.eq("profile_id", uid).eq("is_active", true)] with the join *)
Definition select_member_projects (uid : string) (s : Store.t) : list JoinedRow.t :=
  map (join_project s)
    (List.filter (fun m => String.eqb (MemberRow.profile_id m) uid && is_true (MemberRow.is_active m))
       (map snd (Store.project_members s))).

(** [.eq("project_id", projectId).eq("is_active", true)] *)
Definition select_members (projectId : string) (s : Store.t) : list MemberRow.t :=
  List.filter (fun m => String.eqb (MemberRow.project_id m) projectId && is_true (MemberRow.is_active m))
    (map snd (Store.project_members s)).

Definition insert_project (fresh org name : string) (active : bool) (s : Store.t)
  : ProjectRow.t * Store.t :=
  let row := ProjectRow.mk fresh org name None (Some active) in
  (row, Store.mk (Store.profiles s) (Store.projects s ++ [row]) (Store.project_members s)).

Definition insert_member (fresh : string) (org : option string) (projectId profileId : string)
    (active : bool) (s : Store.t) : Store.t :=
  Store.mk (Store.profiles s) (Store.projects s)
    (Store.project_members s ++ [(org, MemberRow.mk fresh projectId profileId (Some active))]).

(** [.update({ is_active }).eq("id", memberId)] *)
Definition update_member_active (memberId : string) (active : bool) (s : Store.t) : Store.t :=
  Store.mk (Store.profiles s) (Store.projects s)
    (map (fun r => if String.eqb (MemberRow.id (snd r)) memberId
                   then (fst r, patch_is_active active (snd r)) else r)
       (Store.project_members s)).

Definition delete_member (memberId : string) (s : Store.t) : Store.t :=
  Store.mk (Store.profiles s) (Store.projects s)
    (List.filter (fun r => negb (String.eqb (MemberRow.id (snd r)) memberId))
       (Store.project_members s)).

(** What the store does with a request it serves; [fresh] is the id it
    gives to an inserted row. *)
Definition perform (q : Query) (fresh : string) (s : Store.t) : answer q * Store.t :=
  match q return answer q * Store.t with
  | SelectProfiles org => (select_profiles org s, s)
  | SelectProjects org => (select_projects org s, s)
  | SelectMemberProjects uid => (select_member_projects uid s, s)
  | SelectMembers projectId => (select_members projectId s, s)
  | InsertProject org name active => insert_project fresh org name active s
  | InsertMember org projectId profileId active =>
      (tt, insert_member fresh org projectId profileId active s)
  | UpdateMemberActive memberId active => (tt, update_member_active memberId active s)
  | DeleteMember memberId => (tt, delete_member memberId s)
  end.

(** How a request ends: served, or refused with an error message, in which
    case the store is left as it was. *)
Inductive Outcome : Type :=
| Served (fresh : string)
| Refused (message : string).

Definition serve (q : Query) (o : Outcome) (s : Store.t) : Response (answer q) * Store.t :=
  match o with
  | Served fresh => let '(a, s') := perform q fresh s in (Success a, s')
  | Refused message => (Failure message, s)
  end.

(** ** Project creation *)

(** [(a, b) => a.name.localeCompare(b.name)] *)
Definition byName (a b : ProjectRow.t) : Z :=
  localeCompare (ProjectRow.name a) (ProjectRow.name b).

Definition createProject (profile : option Profile) (newName : string) : Async :=
  match truthy (profile ≫= org_id) with
  | None => Return
  | Some org =>
      if negb (isAdminOrManager profile) then
        (setMsg (fun _ => "Only admin/manager can create projects.") ;; Return)%async
      else
        let name := trim newName in
        if String.eqb name "" then Return
        else
          (setBusy true ;;
           setMsg (fun _ => "") ;;
           await r <- InsertProject org name true ;;
           setBusy false ;;
           match r with
           | Failure e => setMsg (fun _ => e) ;; Return
           | Success data =>
               setProjects (fun prev =>
                 js_sort byName (prev ++ [data])) ;;
               setNewName "" ;;
               Return
           end)%async
  end.

(** ** Candidate derivation *)

(** [sp.get("user") || ""] *)
Definition focusUserOf (param : option string) : string := default "" param.

(** *** Reading the membership map

    [membersByProject] is a plain object.  The map of the page state holds
    its own properties; a read by key falls back on what every object takes
    from [Object.prototype]: eleven functions and the accessor [__proto__].
    Of such a value the page only ever asks for [some], [map] and [length],
    and only functions have a [length]. *)
Definition objectPrototype : list (string * option nat) :=
  [("constructor", Some 1); ("__proto__", None);
   ("hasOwnProperty", Some 1); ("isPrototypeOf", Some 1); ("propertyIsEnumerable", Some 1);
   ("toLocaleString", Some 0); ("toString", Some 0); ("valueOf", Some 0);
   ("__defineGetter__", Some 2); ("__defineSetter__", Some 2);
   ("__lookupGetter__", Some 1); ("__lookupSetter__", Some 1)].

(** [members]: an array of rows, or an inherited value with the [length]
    it has, if any. *)
Inductive Members : Type :=
| Rows (l : list MemberRow.t)
| NotAnArray (length : option nat).

(** [membersByProject[p.id] || []]: every value that can be read is truthy,
    the empty array included. *)
Definition membersOf (s : PageState) (p : ProjectRow.t) : Members :=
  match membersByProject s !! ProjectRow.id p with
  | Some l => Rows l
  | None =>
      match List.find (fun e => String.eqb (fst e) (ProjectRow.id p)) objectPrototype with
      | Some e => NotAnArray (snd e)
      | None => Rows []
      end
  end.

(** What an expression of the render comes to: a value, or the [TypeError]
    of a call to something that is not a function. *)
Inductive Result (A : Type) : Type :=
| Value (a : A)
| TypeError.
#[global] Arguments Value {A} a.
#[global] Arguments TypeError {A}.

(** [l.filter(f)] for a callback that may throw; the callback is called on
    each element in turn, and not at all on an empty array. *)
Fixpoint jsFilter {A} (f : A -> Result bool) (l : list A) : Result (list A) :=
  match l with
  | [] => Value []
  | x :: l' =>
      match f x with
      | TypeError => TypeError
      | Value keep =>
          match jsFilter f l' with
          | TypeError => TypeError
          | Value r => Value (if keep then x :: r else r)
          end
      end
  end.

(** [members.some(f)] *)
Definition someMember (members : Members) (f : MemberRow.t -> bool) : Result bool :=
  match members with
  | Rows l => Value (existsb f l)
  | NotAnArray _ => TypeError
  end.

(** [candidatePeople] of the render, for the project [p]. *)
Definition candidatePeople (s : PageState) (focusUser : string) (p : ProjectRow.t)
  : Result (list ProfileRow.t) :=
  let members := membersOf s p in
  jsFilter
    (fun x =>
       match someMember members
               (fun m => String.eqb (MemberRow.profile_id m) (ProfileRow.id x)) with
       | Value found => Value (negb found)
       | TypeError => TypeError
       end)
    (List.filter (fun x => if String.eqb focusUser "" then true else String.eqb (ProfileRow.id x) focusUser)
       (List.filter (fun x => not_false (ProfileRow.is_active x)) (orgProfiles s))).

(** ** Running a handler *)

(** The world a handler runs in: the page state, the store, and the
    requests issued so far. *)
Record World : Type := mkWorld
  { ui : PageState;
    db : Store.t;
    calls : list Query }.

(** Runs a handler up to its next [await] (or its end); the request it
    stops at is issued. *)
Fixpoint advance (cancelled : bool) (p : Async) (w : World) : World * Async :=
  match p with
  | Return => (w, Return)
  | SetState f k => advance cancelled k (mkWorld (f (ui w)) (db w) (calls w))
  | IfCancelled k => advance cancelled (k cancelled) w
  | Await q k => (mkWorld (ui w) (db w) (calls w ++ [q]), Await q k)
  end.

(** The response to the awaited request arrives. *)
Definition resume (cancelled : bool) (o : Outcome) (p : Async) (w : World) : World * Async :=
  match p with
  | Await q k =>
      let '(r, s') := serve q o (db w) in
      advance cancelled (k r) (mkWorld (ui w) s' (calls w))
  | _ => (w, p)
  end.

(** What can happen to one suspended handler: a response arrives, or (for
    the effect) the cleanup sets [cancelled]. *)
Inductive Event : Type :=
| Respond (o : Outcome)
| Cleanup.

Fixpoint play (evs : list Event) (cancelled : bool) (p : Async) (w : World) : World * Async :=
  match evs with
  | [] => (w, p)
  | Respond o :: evs' =>
      let '(w', p') := resume cancelled o p w in play evs' cancelled p' w'
  | Cleanup :: evs' => play evs' true p w
  end.

(** A handler is called and then receives the events in turn. *)
Definition launch (p : Async) (evs : list Event) (w : World) : World * Async :=
  let '(w', p') := advance false p w in play evs false p' w'.

(** A handler run to its end with the given outcomes of its requests. *)
Definition run (p : Async) (os : list Outcome) (w : World) : World * Async :=
  launch p (map Respond os) w.

(** The world after the run, and whether the handler has reached its end. *)
Definition after (p : Async) (os : list Outcome) (w : World) : World :=
  fst (run p os w).

Definition finished (p : Async) (os : list Outcome) (w : World) : Prop :=
  snd (run p os w) = Return.

(** ** The page: the effect and the handlers side by side *)

(** A handler in flight, with the [cancelled] variable of its closure
    (only the effect's cleanup ever sets it). *)
Record Task : Type := mkTask
  { cancelled : bool;
    cont : Async }.

(** The mounted page: the viewer of the last render, the handlers in
    flight, and the task of the effect whose cleanup is registered. *)
Record Page : Type := mkPage
  { world : World;
    profile : option Profile;
    userId : option string;
    tasks : list Task;
    effect : option nat }.

(** The dependency array [[profile?.org_id, userId, isAdminOrManager]]. *)
Definition depsOf (profile : option Profile) (userId : option string)
  : option string * option string * bool :=
  (profile ≫= org_id, userId, isAdminOrManager profile).

(** The cleanup of the last effect: [cancelled = true]. *)
Definition cleanup (effect : option nat) (ts : list Task) : list Task :=
  match effect with
  | Some i => alter (fun t => mkTask true (cont t)) i ts
  | None => ts
  end.

(** The effect body of a render, after the cleanup of the previous one. *)
Definition runEffect (profile : option Profile) (userId : option string)
    (w : World) (ts : list Task) : Page :=
  match visibilityEffect profile userId with
  | None => mkPage w profile userId ts None
  | Some p =>
      let '(w', p') := advance false p w in
      mkPage w' profile userId (ts ++ [mkTask false p']) (Some (length ts))
  end.

Definition mount (profile : option Profile) (userId : option string) (w : World) : Page :=
  runEffect profile userId w [].

(** A render with the viewer the profile hook now yields: the effect is
    re-run only when a dependency changed. *)
Definition render (profile' : option Profile) (userId' : option string) (pg : Page) : Page :=
  if decide (depsOf profile' userId' = depsOf (profile pg) (userId pg)) then
    mkPage (world pg) profile' userId' (tasks pg) (effect pg)
  else
    runEffect profile' userId' (world pg) (cleanup (effect pg) (tasks pg)).

(** The response to the request of task [i] arrives. *)
Definition deliver (i : nat) (o : Outcome) (pg : Page) : Page :=
  match tasks pg !! i with
  | Some t =>
      let '(w', p') := resume (cancelled t) o (cont t) (world pg) in
      mkPage w' (profile pg) (userId pg) (<[i := mkTask (cancelled t) p']> (tasks pg)) (effect pg)
  | None => pg
  end.

(** An event handler of the render is called. *)
Definition invoke (p : Async) (pg : Page) : Page :=
  let '(w', p') := advance false p (world pg) in
  mkPage w' (profile pg) (userId pg) (tasks pg ++ [mkTask false p']) (effect pg).

Inductive Action : Type :=
| Viewer (profile : option Profile) (userId : option string)
| Deliver (i : nat) (o : Outcome)
| TypeName (v : string)
| ClickCreate
| ClickLoadMembers (projectId : string)
| PickMember (projectId profileId : string)
| ClickRemove (projectId memberId : string).

Definition act (a : Action) (pg : Page) : Page :=
  match a with
  | Viewer profile' userId' => render profile' userId' pg
  | Deliver i o => deliver i o pg
  | TypeName v =>
      mkPage (mkWorld (setNewName v (ui (world pg))) (db (world pg)) (calls (world pg)))
        (profile pg) (userId pg) (tasks pg) (effect pg)
  | ClickCreate => invoke (createProject (profile pg) (newName (ui (world pg)))) pg
  | ClickLoadMembers projectId => invoke (loadMembers projectId) pg
  | PickMember projectId profileId =>
      if String.eqb profileId "" then pg
      else invoke (addMember (profile pg) projectId profileId) pg
  | ClickRemove projectId memberId => invoke (removeMember projectId memberId) pg
  end.

Definition acts (l : list Action) (pg : Page) : Page :=
  fold_left (fun pg a => act a pg) l pg.

End WithHost.

(** ** The write discipline of a cancellable handler

    [strict p]: from [p] on, every state update sits in the branch of a
    [cancelled] test where the flag is unset, now and after every later
    response.  [lenient p] is the same for a handler that is inside such a
    branch (or has not awaited anything yet): it may update the state until
    its next request. *)
Fixpoint strict (p : Async) : Prop :=
  match p with
  | Return => True
  | SetState _ _ => False
  | IfCancelled k => strict (k true) /\ lenient (k false)
  | Await _ k => forall r, strict (k r)
  end
with lenient (p : Async) : Prop :=
  match p with
  | Return => True
  | SetState _ k => lenient k
  | IfCancelled k => lenient (k false)
  | Await _ k => forall r, strict (k r)
  end.

(** The cancelled tasks of a page, and the task of its current effect,
    keep the discipline. *)
Definition disciplined (pg : Page) : Prop :=
  (forall i t, tasks pg !! i = Some t -> cancelled t = true -> strict (cont t)) /\
  (forall i, effect pg = Some i -> exists t, tasks pg !! i = Some t /\ strict (cont t)).

(** Task [i] of the page has been cancelled. *)
Definition superseded (i : nat) (pg : Page) : Prop :=
  exists t, tasks pg !! i = Some t /\ cancelled t = true.

(** ** A concrete host and the organisation of the running example *)

Definition roleText (r : Role) : string :=
  match r with
  | admin => "admin"
  | manager => "manager"
  | contractor => "contractor"
  end.

(** A host whose orders all compare code units; absent full names go last. *)
#[export] Instance codeUnitHost : Host :=
  {| name_le := String.leb;
     profile_le := fun a b =>
       match String.compare (roleText (ProfileRow.role a)) (roleText (ProfileRow.role b)) with
       | Lt => true
       | Gt => false
       | Eq =>
           match ProfileRow.full_name a, ProfileRow.full_name b with
           | Some x, Some y => String.leb x y
           | None, Some _ => false
           | _, _ => true
           end
       end;
     localeCompare := fun a b =>
       match String.compare a b with
       | Lt => (-1)%Z
       | Eq => 0%Z
       | Gt => 1%Z
       end |}.

(** One organisation with an admin [A] and two contractors [B] and [C], two
    projects, and one active membership, of [B] in [P1]. *)
Module Scenario.
Definition A : ProfileRow.t := ProfileRow.mk "A" (Some "Ada") admin (Some true) None.
Definition B : ProfileRow.t := ProfileRow.mk "B" (Some "Bo") contractor (Some true) (Some "A").
Definition C : ProfileRow.t := ProfileRow.mk "C" (Some "Cy") contractor (Some true) (Some "A").

Definition P1 : ProjectRow.t := ProjectRow.mk "P1" "org" "Alpha" None (Some true).
Definition P2 : ProjectRow.t := ProjectRow.mk "P2" "org" "Beta" None None.

Definition BP1 : MemberRow.t := MemberRow.mk "m1" "P1" "B" (Some true).

Definition store : Store.t :=
  Store.mk [("org", A); ("org", B); ("org", C)] [P2; P1] [(Some "org", BP1)].

Definition viewerA : option Profile := Some (mkProfile (Some "org") admin).
Definition viewerB : option Profile := Some (mkProfile (Some "org") contractor).

(** Viewers whose profile has no organisation yet. *)
Definition stray : option Profile := Some (mkProfile None contractor).
Definition strayAdmin : option Profile := Some (mkProfile None admin).

Definition fresh : World := mkWorld initialState store [].

(** The page of an admin who has loaded the directory, both projects and
    the members of [P1]. *)
Definition loaded : PageState :=
  mkPageState [P1; P2] [A; B; C] {[ "P1" := [BP1] ]} "" false "Gamma".

Definition settled : World := mkWorld loaded store [].
End Scenario.

(** ** The candidate list in the words of the specification

    [candidates(project) = activeOrgProfiles − alreadyMembers(project)],
    narrowed to the focus profile when one is given. *)

Definition activeOrgProfiles (s : PageState) : list ProfileRow.t :=
  List.filter (fun x => not_false (ProfileRow.is_active x)) (orgProfiles s).

Definition narrowed (focusUser : string) (l : list ProfileRow.t) : list ProfileRow.t :=
  if String.eqb focusUser "" then l
  else List.filter (fun x => String.eqb (ProfileRow.id x) focusUser) l.

(** The profiles of the loaded membership set; none when nothing is loaded. *)
Definition alreadyMembers (s : PageState) (p : ProjectRow.t) : list string :=
  match membersByProject s !! ProjectRow.id p with
  | Some members => map MemberRow.profile_id members
  | None => []
  end.

Definition candidates_spec (s : PageState) (focusUser : string) (p : ProjectRow.t)
  : list ProfileRow.t :=
  List.filter (fun x => negb (existsb (String.eqb (ProfileRow.id x)) (alreadyMembers s p)))
    (narrowed focusUser (activeOrgProfiles s)).

(** ** Orders

    A comparison that relates any two elements one way or the other. *)
Definition total {A} (le : A -> A -> bool) : Prop :=
  forall a b, le a b = true \/ le b a = true.

(** A comparison that chains. *)
Definition transitive {A} (le : A -> A -> bool) : Prop :=
  forall a b c, le a b = true -> le b c = true -> le a c = true.

(** [x] put into [l] behind the leading elements that are not greater. *)
Fixpoint place {A} (le : A -> A -> bool) (x : A) (l : list A) : list A :=
  match l with
  | [] => [x]
  | y :: l' => if le y x then y :: place le x l' else x :: l
  end.

(** The first and the last code unit of a string. *)
Definition firstUnit (s : string) : option ascii :=
  match s with
  | EmptyString => None
  | String c _ => Some c
  end.

Fixpoint lastUnit (s : string) : option ascii :=
  match s with
  | EmptyString => None
  | String c s' =>
      match lastUnit s' with
      | None => Some c
      | Some d => Some d
      end
  end.

(** ** What the page shows *)

(** The three returns of the component: while the profile loads, without a
    profile or a user id, and otherwise. *)
Inductive Screen : Type := Loading | PleaseLogIn | Main.

(** [if (profLoading) ...; if (!profile || !userId) ...] *)
Definition screen (profLoading : bool) (profile : option Profile) (userId : option string)
  : Screen :=
  if profLoading then Loading
  else
    match profile, truthy userId with
    | Some _, Some _ => Main
    | _, _ => PleaseLogIn
    end.

(** [a || b] for a string that may be null. *)
Definition orElse (a : option string) (b : string) : string :=
  match truthy a with
  | Some s => s
  | None => b
  end.

(** [s.slice(0, n)] *)
Fixpoint slice0 (n : nat) (s : string) : string :=
  match n, s with
  | S n', String c s' => String c (slice0 n' s')
  | _, _ => EmptyString
  end.

(** The name in an option of the member picker:
    [(u.full_name || u.id).slice(0, 45)]. *)
Definition optionName (u : ProfileRow.t) : string :=
  slice0 45 (orElse (ProfileRow.full_name u) (ProfileRow.id u)).

(** The name on a member's line: [u?.full_name || m.profile_id], with [u]
    the directory entry of the member's profile. *)
Definition memberName (s : PageState) (m : MemberRow.t) : string :=
  let u := List.find (fun x => String.eqb (ProfileRow.id x) (MemberRow.profile_id m))
             (orgProfiles s) in
  orElse (u ≫= ProfileRow.full_name) (MemberRow.profile_id m).

(** [focusUser ? orgProfiles.find((p) => p.id === focusUser)?.full_name : ""] *)
Definition focusProfileName (s : PageState) (focusUser : string) : option string :=
  if String.eqb focusUser "" then Some ""
  else List.find (fun p => String.eqb (ProfileRow.id p) focusUser) (orgProfiles s)
         ≫= ProfileRow.full_name.

(** The name after "Managing access for:", shown when [focusUser] is set:
    [focusProfileName || focusUser]. *)
Definition focusHeaderName (s : PageState) (focusUser : string) : string :=
  orElse (focusProfileName s focusUser) focusUser.

(** [disabled] of the Create button:
    [!isAdminOrManager || busy || !newName.trim()]. *)
Definition createDisabled (profile : option Profile) (s : PageState) : bool :=
  negb (isAdminOrManager profile) || busy s || String.eqb (trim (newName s)) "".

(** The label of a project's load button:
    [membersByProject[p.id] ? "Refresh members" : "Load members"], where an
    inherited value counts as much as a loaded set. *)
Definition loadLabel (s : PageState) (p : ProjectRow.t) : string :=
  match membersByProject s !! ProjectRow.id p with
  | Some _ => "Refresh members"
  | None =>
      match List.find (fun e => String.eqb (fst e) (ProjectRow.id p)) objectPrototype with
      | Some _ => "Refresh members"
      | None => "Load members"
      end
  end.

(** What the section of a project shows: the label of the load button and,
    for a viewer who can manage members, the picker's candidates and either
    the line "No members loaded yet (or none assigned)." or the names on
    the members' lines. *)
Record SectionView : Type := mkSectionView
  { loadButton : string;
    picker : option (list ProfileRow.t);
    emptyLine : bool;
    memberLines : list string }.

(** The callback of [projects.map] for the project [p]: [candidatePeople]
    is computed first, for every viewer; the membership block is rendered
    under [canManageMembers] only, with [members.length === 0] deciding
    between the empty line and [members.map]. *)
Definition renderSection (profile : option Profile) (s : PageState) (focusUser : string)
    (p : ProjectRow.t) : Result SectionView :=
  match candidatePeople s focusUser p with
  | TypeError => TypeError
  | Value candidates =>
      if isAdminOrManager profile then
        match membersOf s p with
        | Rows [] => Value (mkSectionView (loadLabel s p) (Some candidates) true [])
        | Rows members =>
            Value (mkSectionView (loadLabel s p) (Some candidates) false
                     (map (memberName s) members))
        | NotAnArray (Some 0) =>
            Value (mkSectionView (loadLabel s p) (Some candidates) true [])
        | NotAnArray _ => TypeError
        end
      else Value (mkSectionView (loadLabel s p) None false [])
  end.

(** ** Pages in flight *)

(** The effect of a page belongs to a viewer whose organisation and user id
    are resolved, and is one of its tasks. *)
Definition anchored (pg : Page) : Prop :=
  forall i, effect pg = Some i ->
    i < length (tasks pg) /\
    truthy (profile pg ≫= org_id) <> None /\ truthy (userId pg) <> None.


(** A page of the running example with a project whose id is the name of
    an inherited property, and no membership loaded for it. *)
Definition oddProject : ProjectRow.t := ProjectRow.mk "constructor" "org" "Odd" None (Some true).

Definition oddPage : PageState :=
  mkPageState [oddProject] [Scenario.A; Scenario.B; Scenario.C] ∅ "" false "".

(** * Properties *)

(** ** Sorting *)

Section SortFacts.
Context {A : Type} (le : A -> A -> bool).

Lemma insert_by_perm (x : A) (l : list A) : Permutation (insert_by le x l) (x :: l).
Proof.
  induction l as [|y l IH]; simpl; [reflexivity|].
  destruct (le x y); [reflexivity|].
  rewrite IH. apply perm_swap.
Qed.

Lemma sort_by_perm (l : list A) : Permutation (sort_by le l) l.
Proof.
  induction l as [|x l IH]; simpl; [constructor|].
  rewrite insert_by_perm. now constructor.
Qed.

Lemma sort_by_In (x : A) (l : list A) : In x (sort_by le l) <-> In x l.
Proof.
  split; apply Permutation_in; [|symmetry]; apply sort_by_perm.
Qed.

Lemma insert_by_sorted (x : A) (l : list A) :
  total le -> Sorted (fun a b => le a b = true) l ->
  Sorted (fun a b => le a b = true) (insert_by le x l).
Proof.
  intros Htot. induction l as [|y l IH]; simpl; intros Hs.
  - repeat constructor.
  - destruct (le x y) eqn:Hxy.
    + constructor; [assumption|]. now constructor.
    + apply Sorted_inv in Hs as [Hs Hhd]. constructor; [now apply IH|].
      destruct l as [|z l]; simpl.
      * constructor. destruct (Htot x y); congruence.
      * destruct (le x z).
        -- constructor. destruct (Htot x y); congruence.
        -- constructor. now apply HdRel_inv in Hhd.
Qed.

Lemma sort_by_sorted (l : list A) :
  total le -> Sorted (fun a b => le a b = true) (sort_by le l).
Proof.
  intros Htot. induction l as [|x l IH]; simpl; [constructor|].
  now apply insert_by_sorted.
Qed.

(** Sorting only moves what is out of place. *)
Lemma sort_by_fixes_sorted (l : list A) :
  Sorted (fun a b => le a b = true) l -> sort_by le l = l.
Proof.
  induction l as [|x l IH]; simpl; [reflexivity|].
  intros Hs. apply Sorted_inv in Hs as [Hs Hhd].
  rewrite IH by assumption.
  destruct l as [|y l]; simpl; [reflexivity|].
  apply HdRel_inv in Hhd. now rewrite Hhd.
Qed.
End SortFacts.

Lemma Sorted_weaken {A} (R R' : A -> A -> Prop) (l : list A) :
  (forall a b, R a b -> R' a b) -> Sorted R l -> Sorted R' l.
Proof.
  intros Himp. induction 1 as [|x l Hs IH Hhd]; constructor; [assumption|].
  destruct Hhd; constructor. now apply Himp.
Qed.

(** ** Candidate derivation *)

Lemma existsb_profile_id (x : ProfileRow.t) (members : list MemberRow.t) :
  existsb (fun m => String.eqb (MemberRow.profile_id m) (ProfileRow.id x)) members
  = existsb (String.eqb (ProfileRow.id x)) (map MemberRow.profile_id members).
Proof.
  induction members as [|m members IH]; simpl; [reflexivity|].
  now rewrite IH, String.eqb_sym.
Qed.

Lemma jsFilter_total {A} (g : A -> bool) (l : list A) :
  jsFilter (fun x => Value (g x)) l = Value (List.filter g l).
Proof.
  induction l as [|x l IH]; simpl; [reflexivity|].
  rewrite IH. now destruct (g x).
Qed.

(** The three ways a read of the membership map can go. *)
Lemma membersOf_loaded (s : PageState) (p : ProjectRow.t) (members : list MemberRow.t) :
  membersByProject s !! ProjectRow.id p = Some members -> membersOf s p = Rows members.
Proof. unfold membersOf. now intros ->. Qed.

Lemma membersOf_plain (s : PageState) (p : ProjectRow.t) :
  membersByProject s !! ProjectRow.id p = None ->
  ~ In (ProjectRow.id p) (map fst objectPrototype) ->
  membersOf s p = Rows [].
Proof.
  unfold membersOf. intros -> Hplain.
  destruct (List.find _ objectPrototype) as [e|] eqn:Hfind; [|reflexivity].
  apply find_some in Hfind as [Hin Heq]. apply String.eqb_eq in Heq.
  exfalso. apply Hplain. rewrite <- Heq. now apply in_map.
Qed.

Lemma membersOf_inherited (s : PageState) (p : ProjectRow.t) :
  membersByProject s !! ProjectRow.id p = None ->
  In (ProjectRow.id p) (map fst objectPrototype) ->
  exists n, membersOf s p = NotAnArray n.
Proof.
  unfold membersOf. intros -> Hin.
  destruct (List.find _ objectPrototype) as [e|] eqn:Hfind; [now exists (snd e)|].
  apply in_map_iff in Hin as (e & He & Hin).
  apply (find_none _ _ Hfind) in Hin. rewrite He, String.eqb_refl in Hin. discriminate.
Qed.

Lemma membersOf_rows (s : PageState) (p : ProjectRow.t) (members : list MemberRow.t) :
  membersOf s p = Rows members -> alreadyMembers s p = map MemberRow.profile_id members.
Proof.
  unfold membersOf, alreadyMembers.
  destruct (membersByProject s !! ProjectRow.id p) as [l|]; [now intros [= ->]|].
  destruct (List.find _ objectPrototype); [discriminate|]. now intros [= <-].
Qed.

(** Where the read gives an array, the code computes the candidates of the
    specification. *)
Lemma candidatePeople_refines
    (s : PageState) (focusUser : string) (p : ProjectRow.t) (members : list MemberRow.t) :
  membersOf s p = Rows members ->
  candidatePeople s focusUser p = Value (candidates_spec s focusUser p).
Proof.
  intros Hrows. unfold candidatePeople, candidates_spec.
  rewrite (membersOf_rows _ _ _ Hrows), Hrows. simpl. rewrite jsFilter_total. f_equal.
  unfold narrowed, activeOrgProfiles.
  destruct (String.eqb focusUser "") eqn:Hf.
  - rewrite (forallb_filter_id (fun _ => true)) by (apply forallb_forall; reflexivity).
    apply filter_ext. intros x. now rewrite existsb_profile_id.
  - apply filter_ext. intros x. now rewrite existsb_profile_id.
Qed.

(** Where it gives an inherited value, the first call of the callback
    throws; there is none when nobody passes the first two filters. *)
Lemma candidatePeople_inherited
    (s : PageState) (focusUser : string) (p : ProjectRow.t) (n : option nat) :
  membersOf s p = NotAnArray n ->
  candidatePeople s focusUser p
  = match narrowed focusUser (activeOrgProfiles s) with
    | [] => Value []
    | _ :: _ => TypeError
    end.
Proof.
  intros Hin. unfold candidatePeople, narrowed, activeOrgProfiles. rewrite Hin.
  destruct (String.eqb focusUser "") eqn:Hf.
  - rewrite (forallb_filter_id (fun _ => true)) by (apply forallb_forall; reflexivity).
    now destruct (List.filter _ (orgProfiles s)).
  - now destruct (List.filter _ (List.filter _ (orgProfiles s))).
Qed.

Lemma filter_sublist {A} (f : A -> bool) (l : list A) : sublist (List.filter f l) l.
Proof.
  induction l as [|x l IH]; simpl; [constructor|].
  destruct (f x); now constructor.
Qed.

Lemma existsb_eqb_In (k : string) (l : list string) :
  existsb (String.eqb k) l = true <-> In k l.
Proof.
  rewrite existsb_exists. split.
  - intros (y & Hy & Heq). apply String.eqb_eq in Heq. now subst.
  - intros Hk. exists k. split; [assumption|apply String.eqb_refl].
Qed.

Lemma not_false_iff (b : option bool) : not_false b = true <-> b <> Some false.
Proof. destruct b as [[]|]; simpl; split; congruence. Qed.

Lemma candidates_spec_In (s : PageState) (focusUser : string) (p : ProjectRow.t) (x : ProfileRow.t) :
  In x (candidates_spec s focusUser p) <->
  In x (orgProfiles s) /\ ProfileRow.is_active x <> Some false /\
  (focusUser = "" \/ ProfileRow.id x = focusUser) /\
  ~ In (ProfileRow.id x) (alreadyMembers s p).
Proof.
  unfold candidates_spec, narrowed, activeOrgProfiles.
  rewrite filter_In, negb_true_iff, <- not_true_iff_false, existsb_eqb_In.
  destruct (String.eqb_spec focusUser "") as [->|Hne].
  - rewrite filter_In, not_false_iff. intuition.
  - rewrite !filter_In, not_false_iff, String.eqb_eq. intuition.
Qed.

(** For a project whose membership set is loaded, or whose id is not the
    name of an inherited property, the candidate list is the active
    directory, in directory order, narrowed to the focus profile when one is
    given, minus the profiles of the loaded set; nothing is subtracted when
    no set is loaded, and no profile of a loaded set is a candidate. *)
Lemma candidates_of_readable_project
    (s : PageState) (focusUser : string) (p : ProjectRow.t) :
  is_Some (membersByProject s !! ProjectRow.id p) \/
  ~ In (ProjectRow.id p) (map fst objectPrototype) ->
  candidatePeople s focusUser p = Value (candidates_spec s focusUser p) /\
  sublist (candidates_spec s focusUser p) (orgProfiles s) /\
  (forall x, In x (candidates_spec s focusUser p) <->
     In x (orgProfiles s) /\ ProfileRow.is_active x <> Some false /\
     (focusUser = "" \/ ProfileRow.id x = focusUser) /\
     ~ In (ProfileRow.id x) (alreadyMembers s p)) /\
  (membersByProject s !! ProjectRow.id p = None ->
     candidates_spec s focusUser p = narrowed focusUser (activeOrgProfiles s)) /\
  (forall members, membersByProject s !! ProjectRow.id p = Some members ->
     forall x m, In x (candidates_spec s focusUser p) -> In m members ->
       MemberRow.profile_id m <> ProfileRow.id x).
Proof.
  intros Hreadable.
  assert (exists members, membersOf s p = Rows members) as [members Hrows].
  { destruct (membersByProject s !! ProjectRow.id p) as [l|] eqn:Hl.
    - exists l. now apply membersOf_loaded.
    - exists []. apply membersOf_plain; [assumption|].
      destruct Hreadable as [[l Hsome]|Hplain]; [discriminate|assumption]. }
  split; [now apply (candidatePeople_refines _ _ _ members)|].
  split.
  { unfold candidates_spec, narrowed, activeOrgProfiles.
    etransitivity; [apply filter_sublist|].
    destruct (String.eqb focusUser ""); [apply filter_sublist|].
    etransitivity; apply filter_sublist. }
  split; [intros x; apply candidates_spec_In|].
  split.
  - intros Hnone. unfold candidates_spec, alreadyMembers. rewrite Hnone. simpl.
    apply forallb_filter_id, forallb_forall. reflexivity.
  - intros ms Hsome x m Hx Hm Heq.
    apply candidates_spec_In in Hx as (_ & _ & _ & Hnot).
    apply Hnot. unfold alreadyMembers. rewrite Hsome, <- Heq.
    now apply in_map.
Qed.

Example candidates_in_the_scenario :
  candidatePeople Scenario.loaded "" Scenario.P2
  = Value [Scenario.A; Scenario.B; Scenario.C] /\
  candidatePeople Scenario.loaded "" Scenario.P1 = Value [Scenario.A; Scenario.C].
Proof. split; reflexivity. Qed.

(** C5 fails on a project that has no membership set loaded and whose id
    is the name of a property every object inherits.  With the directory
    [A], [B], [C] on the page and the project id ["constructor"], nothing is
    loaded for the project, the candidates ought to be the whole directory,
    and the read [membersByProject[p.id]] gives the inherited function:
    [members.some] is not a function, and the render of the project's
    section throws for every viewer. *)
Lemma unloaded_inherited_id_throws :
  membersByProject oddPage !! ProjectRow.id oddProject = None /\
  candidates_spec oddPage "" oddProject = [Scenario.A; Scenario.B; Scenario.C] /\
  membersOf oddPage oddProject = NotAnArray (Some 1) /\
  candidatePeople oddPage "" oddProject = TypeError /\
  (forall profile, renderSection profile oddPage "" oddProject = TypeError).
Proof. now repeat split. Qed.

(** ** Loading the members of a project *)

Section Handlers.
Context {host : Host}.

Lemma play_Return (evs : list Event) (c : bool) (w : World) :
  play evs c Return w = (w, Return).
Proof.
  revert c. induction evs as [|[o|] evs IH]; intros c; simpl; auto.
Qed.

Lemma select_members_In (projectId : string) (s : Store.t) (m : MemberRow.t) :
  In m (select_members projectId s) <->
  In m (map snd (Store.project_members s)) /\
  MemberRow.project_id m = projectId /\ MemberRow.is_active m = Some true.
Proof.
  unfold select_members. rewrite filter_In, andb_true_iff, String.eqb_eq.
  destruct (MemberRow.is_active m) as [[]|]; simpl; intuition congruence.
Qed.

(** C7.  Loading the members of a project asks the store for the
    project's membership rows with [is_active = true].  When the store
    answers, the project's entry of the membership map is replaced by the
    answer, whatever it held before; when the store refuses, the message
    is the store's and the membership map is the one from before. *)
Theorem loadMembers_replaces_or_keeps (projectId : string) (o : Outcome) (w : World) :
  finished (loadMembers projectId) [o] w /\
  calls (after (loadMembers projectId) [o] w) = calls w ++ [SelectMembers projectId] /\
  db (after (loadMembers projectId) [o] w) = db w /\
  match o with
  | Served _ =>
      membersByProject (ui (after (loadMembers projectId) [o] w))
      = <[projectId := select_members projectId (db w)]> (membersByProject (ui w)) /\
      membersByProject (ui (after (loadMembers projectId) [o] w)) !! projectId
      = Some (select_members projectId (db w)) /\
      (forall m, In m (select_members projectId (db w)) <->
         In m (map snd (Store.project_members (db w))) /\
         MemberRow.project_id m = projectId /\ MemberRow.is_active m = Some true) /\
      msg (ui (after (loadMembers projectId) [o] w)) = ""
  | Refused e =>
      msg (ui (after (loadMembers projectId) [o] w)) = e /\
      membersByProject (ui (after (loadMembers projectId) [o] w)) = membersByProject (ui w)
  end.
Proof.
  unfold finished, after, run, launch.
  destruct o as [fresh|e]; simpl.
  - do 4 (split; [reflexivity|]).
    split; [apply lookup_insert_eq|].
    split; [|reflexivity].
    intros m. apply select_members_In.
  - now repeat split.
Qed.

(** Loading twice in a row, with nothing in between, gives the same set. *)
Lemma loadMembers_idempotent (projectId : string) (f1 f2 : string) (w : World) :
  let w1 := after (loadMembers projectId) [Served f1] w in
  let w2 := after (loadMembers projectId) [Served f2] w1 in
  membersByProject (ui w2) = membersByProject (ui w1).
Proof.
  unfold after, run, launch; simpl. apply insert_insert_eq.
Qed.

(** C9.  A successful load touches the membership set of its own project
    only: the sets of the other projects, the project list, the directory,
    the name input and the busy flag are as before, and so is the store. *)
Theorem loadMembers_frame (projectId other fresh : string) (w : World) :
  other <> projectId ->
  let w' := after (loadMembers projectId) [Served fresh] w in
  membersByProject (ui w') !! other = membersByProject (ui w) !! other /\
  projects (ui w') = projects (ui w) /\
  orgProfiles (ui w') = orgProfiles (ui w) /\
  newName (ui w') = newName (ui w) /\
  busy (ui w') = busy (ui w) /\
  db w' = db w.
Proof.
  intros Hne. unfold after, run, launch; simpl.
  split; [now apply lookup_insert_ne|]. now repeat split.
Qed.

(** ** Creating a project *)

(** C10.  Without a resolved organisation [createProject] does nothing at
    all, for every caller: no request is issued, no state changes and no
    message is set, the rejection of a non-privileged caller included,
    since the organisation is tested first. *)
Theorem createProject_without_org_is_noop
    (profile : option Profile) (name : string) (os : list Outcome) (w : World) :
  truthy (profile ≫= org_id) = None ->
  run (createProject profile name) os w = (w, Return).
Proof.
  intros Horg. unfold run, launch, createProject. rewrite Horg. simpl.
  apply play_Return.
Qed.
End Handlers.

Lemma loadMembers_frame_witness :
  membersByProject (ui (after (loadMembers "P2") [Served "x"] Scenario.settled)) !! "P1"
  = Some [Scenario.BP1].
Proof.
  destruct (loadMembers_frame "P2" "P1" "x" Scenario.settled) as [Hother _].
  - discriminate.
  - rewrite Hother. reflexivity.
Defined.

Lemma createProject_without_org_is_noop_witness :
  isAdminOrManager Scenario.stray = false /\
  run (createProject Scenario.stray "Gamma") [Served "P3"] Scenario.settled
  = (Scenario.settled, Return).
Proof.
  split; [reflexivity|].
  apply createProject_without_org_is_noop. reflexivity.
Defined.

(** ** White space *)

Lemma trimEnd_empty (s : string) : trimEnd s = "" <-> whitespaceOnly s = true.
Proof.
  induction s as [|c s IH]; simpl; [tauto|].
  rewrite andb_true_iff, <- IH.
  destruct (trimEnd s); destruct (is_js_space c); simpl; intuition discriminate.
Qed.

Lemma whitespaceOnly_trimStart (s : string) :
  whitespaceOnly (trimStart s) = whitespaceOnly s.
Proof.
  induction s as [|c s IH]; simpl; [reflexivity|].
  destruct (is_js_space c) eqn:Hc; simpl; [assumption|now rewrite Hc].
Qed.

Lemma trim_empty (s : string) : trim s = "" <-> whitespaceOnly s = true.
Proof.
  unfold trim. now rewrite trimEnd_empty, whitespaceOnly_trimStart.
Qed.

Section Creation.
Context {host : Host}.

(** C8, as amended.  With the organisation resolved: a privileged caller
    with a name that is not empty once trimmed issues one insert with
    [is_active = true]; when it is served the returned row joins the
    project list, which is sorted again as a whole by name, and the input
    is cleared; when it is refused the message is the store's and the
    project list and the input are as before.  A name of white space only
    changes nothing and issues nothing.  A caller who is not privileged
    gets the rejection message and no request is issued. *)
Theorem createProject_with_org
    (profile : option Profile) (org name : string) (o : Outcome) (w : World) :
  truthy (profile ≫= org_id) = Some org ->
  let w' := after (createProject profile name) [o] w in
  finished (createProject profile name) [o] w /\
  if isAdminOrManager profile then
    (whitespaceOnly name = true -> w' = w) /\
    (whitespaceOnly name = false ->
     calls w' = calls w ++ [InsertProject org (trim name) true] /\
     busy (ui w') = false /\
     match o with
     | Served fresh =>
         let row := ProjectRow.mk fresh org (trim name) None (Some true) in
         Store.projects (db w') = Store.projects (db w) ++ [row] /\
         projects (ui w') = js_sort byName (projects (ui w) ++ [row]) /\
         Permutation (projects (ui w')) (row :: projects (ui w)) /\
         (total (fun a b => (localeCompare a b <=? 0)%Z) ->
          Sorted (fun a b => (byName a b <= 0)%Z) (projects (ui w'))) /\
         newName (ui w') = "" /\
         msg (ui w') = ""
     | Refused e =>
         msg (ui w') = e /\
         projects (ui w') = projects (ui w) /\
         newName (ui w') = newName (ui w) /\
         db w' = db w
     end)
  else
    msg (ui w') = "Only admin/manager can create projects." /\
    calls w' = calls w /\
    db w' = db w /\
    projects (ui w') = projects (ui w) /\
    newName (ui w') = newName (ui w).
Proof.
  intros Horg. unfold finished, after, run, launch, createProject.
  rewrite Horg. destruct (isAdminOrManager profile); simpl; [|now repeat split].
  destruct (String.eqb_spec (trim name) "") as [Hws|Hname]; simpl.
  - apply trim_empty in Hws. rewrite Hws.
  split; [reflexivity|]. split; [now destruct w|]. discriminate.
  - assert (whitespaceOnly name <> true) as Hws by (now rewrite <- trim_empty).
    destruct o as [fresh|e]; simpl.
    + split; [reflexivity|]. split; [intros; contradiction|]. intros _.
      do 4 (split; [reflexivity|]).
      split.
      { unfold js_sort. rewrite sort_by_perm.
        symmetry. apply Permutation_cons_append. }
      split; [|now split].
      intros Htot. unfold js_sort.
      eapply Sorted_weaken; [|apply sort_by_sorted].
      * intros a b Hab. apply Z.leb_le. exact Hab.
      * intros a b. apply Htot.
    + split; [reflexivity|]. split; [intros; contradiction|]. intros _.
      now repeat split.
Qed.
End Creation.

Lemma createProject_with_org_witness :
  projects (ui (after (createProject Scenario.viewerA " Gamma ") [Served "P3"] Scenario.settled))
  = [Scenario.P1; Scenario.P2; ProjectRow.mk "P3" "org" "Gamma" None (Some true)].
Proof.
  destruct (createProject_with_org Scenario.viewerA "org" " Gamma " (Served "P3")
              Scenario.settled eq_refl) as [_ H].
  change (isAdminOrManager Scenario.viewerA) with true in H. cbv iota in H.
  destruct H as [_ H]. destruct (H eq_refl) as (_ & _ & _ & Hsorted & _).
  rewrite Hsorted. reflexivity.
Defined.

(** C8, as stated, fails where the organisation is not resolved: a
    contractor is not told anything, and an admin's name is not inserted. *)
Lemma createProject_counterexample :
  (isAdminOrManager Scenario.stray = false /\
   msg (ui (after (createProject Scenario.stray "Gamma") [Served "P3"] Scenario.settled))
   <> "Only admin/manager can create projects.") /\
  (isAdminOrManager Scenario.strayAdmin = true /\
   whitespaceOnly "Gamma" = false /\
   calls (after (createProject Scenario.strayAdmin "Gamma") [Served "P3"] Scenario.settled) = [] /\
   db (after (createProject Scenario.strayAdmin "Gamma") [Served "P3"] Scenario.settled)
   = Scenario.store).
Proof.
  split.
  - split; [reflexivity|]. vm_compute. discriminate.
  - now repeat split.
Qed.

(** ** Removing a member *)

Section Removal.
Context {host : Host}.

Lemma update_member_active_ids (memberId : string) (active : bool) (s : Store.t) :
  map (fun r => MemberRow.id (snd r)) (Store.project_members (update_member_active memberId active s))
  = map (fun r => MemberRow.id (snd r)) (Store.project_members s).
Proof.
  unfold update_member_active; simpl. rewrite map_map. apply map_ext.
  intros [org m]; simpl. now destruct (String.eqb (MemberRow.id m) memberId).
Qed.

Lemma update_member_active_keeps_row
    (memberId : string) (active : bool) (s : Store.t) (org : option string) (m : MemberRow.t) :
  In (org, m) (Store.project_members s) -> MemberRow.id m = memberId ->
  In (org, patch_is_active active m) (Store.project_members (update_member_active memberId active s)).
Proof.
  intros Hin Hid. unfold update_member_active; simpl.
  apply in_map_iff. exists (org, m). simpl.
  now rewrite Hid, String.eqb_refl.
Qed.

Lemma select_members_after_removal (projectId memberId : string) (s : Store.t) (m : MemberRow.t) :
  In m (select_members projectId (update_member_active memberId false s)) ->
  MemberRow.id m <> memberId.
Proof.
  intros Hin. apply select_members_In in Hin as (Hin & _ & Hact).
  unfold update_member_active in Hin; simpl in Hin.
  rewrite map_map in Hin. apply in_map_iff in Hin as ([org m0] & Hm & _).
  simpl in Hm. destruct (String.eqb_spec (MemberRow.id m0) memberId) as [Heq|Hne].
  - subst m. simpl in Hact. discriminate.
  - simpl in Hm. now subst m0.
Qed.

(** C6.  Removing a member is a soft delete.  The first request is an
    update of [is_active] to [false] on the rows whose own id is the member
    id; no deletion is ever requested and no row leaves the table.  When the
    update is served the members of the project are loaded again: the row is
    still in the store, now with [is_active = false], and once the reload is
    served the project's loaded set has no row with that id. *)
Theorem removeMember_soft_deletes (projectId memberId : string) (o1 o2 : Outcome) (w : World) :
  let w' := after (removeMember projectId memberId) [o1; o2] w in
  finished (removeMember projectId memberId) [o1; o2] w /\
  (exists rest, calls w' = calls w ++ UpdateMemberActive memberId false :: rest /\
                (rest = [] \/ rest = [SelectMembers projectId])) /\
  (forall m, In (DeleteMember m) (calls w') -> In (DeleteMember m) (calls w)) /\
  map (fun r => MemberRow.id (snd r)) (Store.project_members (db w'))
  = map (fun r => MemberRow.id (snd r)) (Store.project_members (db w)) /\
  match o1 with
  | Served _ =>
      calls w' = calls w ++ [UpdateMemberActive memberId false; SelectMembers projectId] /\
      (forall org m, In (org, m) (Store.project_members (db w)) -> MemberRow.id m = memberId ->
         In (org, MemberRow.mk (MemberRow.id m) (MemberRow.project_id m) (MemberRow.profile_id m)
                    (Some false))
            (Store.project_members (db w'))) /\
      match o2 with
      | Served _ =>
          membersByProject (ui w') !! projectId = Some (select_members projectId (db w')) /\
          (forall m, In m (select_members projectId (db w')) -> MemberRow.id m <> memberId)
      | Refused e =>
          msg (ui w') = e /\ membersByProject (ui w') = membersByProject (ui w)
      end
  | Refused e =>
      calls w' = calls w ++ [UpdateMemberActive memberId false] /\
      db w' = db w /\
      msg (ui w') = e /\
      membersByProject (ui w') = membersByProject (ui w)
  end.
Proof.
  unfold finished, after, run, launch.
  destruct o1 as [f1|e1]; [destruct o2 as [f2|e2]|]; simpl.
  - split; [reflexivity|].
    split; [exists [SelectMembers projectId]; rewrite <- app_assoc; auto|].
    split.
    { intros m. rewrite <- app_assoc, in_app_iff. simpl. intuition discriminate. }
    split; [apply update_member_active_ids|].
    split; [now rewrite <- app_assoc|].
    split; [intros org m; apply update_member_active_keeps_row|].
    split; [apply lookup_insert_eq|].
    intros m. apply select_members_after_removal.
  - split; [reflexivity|].
    split; [exists [SelectMembers projectId]; rewrite <- app_assoc; auto|].
    split.
    { intros m. rewrite <- app_assoc, in_app_iff. simpl. intuition discriminate. }
    split; [apply update_member_active_ids|].
    split; [now rewrite <- app_assoc|].
    split; [intros org m; apply update_member_active_keeps_row|].
    now split.
  - split; [reflexivity|].
    split; [exists []; auto|].
    split.
    { intros m. rewrite in_app_iff. simpl. intuition discriminate. }
    now repeat split.
Qed.
End Removal.

Lemma removeMember_soft_deletes_witness :
  let w' := after (removeMember "P1" "m1") [Served "x"; Served "y"] Scenario.settled in
  membersByProject (ui w') !! "P1" = Some [] /\
  Store.project_members (db w') = [(Some "org", MemberRow.mk "m1" "P1" "B" (Some false))].
Proof.
  destruct (removeMember_soft_deletes "P1" "m1" (Served "x") (Served "y") Scenario.settled)
    as (_ & _ & _ & _ & _ & _ & Hloaded & _).
  split; [rewrite Hloaded|]; reflexivity.
Defined.

(** ** Visibility *)

Section Visibility.
Context {host : Host}.

Lemma omap_map {A B C} (f : B -> option C) (g : A -> B) (l : list A) :
  omap f (map g l) = omap (fun x => f (g x)) l.
Proof.
  induction l as [|x l IH]; csimpl; [reflexivity|].
  now rewrite IH.
Qed.

Lemma In_omap {A B} (f : A -> option B) (l : list A) (y : B) :
  In y (omap f l) <-> exists x, In x l /\ f x = Some y.
Proof.
  induction l as [|x l IH]; csimpl.
  - split; [tauto|intros (x & [] & _)].
  - destruct (f x) as [b|] eqn:Hfx; simpl; rewrite IH; split.
    + intros [->|(x' & Hin & Hf)]; eauto.
    + intros (x' & [->|Hin] & Hf); [left; congruence|eauto].
    + intros (x' & Hin & Hf); eauto.
    + intros (x' & [->|Hin] & Hf); [congruence|eauto].
Qed.

(** C1.  For a contractor with organisation and user id resolved the
    effect runs, and once the membership query is served (whatever became
    of the directory query) the project list is: the viewer's membership
    rows with [is_active = true], each joined to its project, without the
    joined projects whose [is_active] is [false]; a project whose
    [is_active] is null or [true] stays. *)
Theorem contractor_sees_member_projects
    (profile : option Profile) (userId : option string) (org uid : string) :
  role <$> profile = Some contractor ->
  truthy (profile ≫= org_id) = Some org ->
  truthy userId = Some uid ->
  exists eff, visibilityEffect profile userId = Some eff /\
  forall (o1 : Outcome) (fresh : string) (w : World),
    let w' := after eff [o1; Served fresh] w in
    let memberships :=
      List.filter (fun m => String.eqb (MemberRow.profile_id m) uid && is_true (MemberRow.is_active m))
        (map snd (Store.project_members (db w))) in
    let joined (m : MemberRow.t) :=
      List.find (fun p => String.eqb (ProjectRow.id p) (MemberRow.project_id m))
        (Store.projects (db w)) in
    finished eff [o1; Served fresh] w /\
    calls w' = calls w ++ [SelectProfiles org; SelectMemberProjects uid] /\
    projects (ui w')
    = List.filter (fun p => not_false (ProjectRow.is_active p)) (omap joined memberships) /\
    (forall p, In p (projects (ui w')) <->
       (exists m, In m (map snd (Store.project_members (db w))) /\
                  MemberRow.profile_id m = uid /\ MemberRow.is_active m = Some true /\
                  joined m = Some p) /\
       ProjectRow.is_active p <> Some false).
Proof.
  intros Hrole Horg Huid.
  destruct profile as [pr|]; [|discriminate]. simpl in Hrole.
  injection Hrole as Hrole.
  unfold visibilityEffect. rewrite Horg, Huid.
  unfold isAdminOrManager. rewrite Hrole. simpl.
  eexists; split; [reflexivity|].
  intros o1 fresh w.
  assert (Hlist :
    List.filter (fun p => not_false (ProjectRow.is_active p))
      (omap JoinedRow.projects (select_member_projects uid (db w)))
    = List.filter (fun p => not_false (ProjectRow.is_active p))
        (omap (fun m => List.find (fun p => String.eqb (ProjectRow.id p) (MemberRow.project_id m))
                          (Store.projects (db w)))
           (List.filter (fun m => String.eqb (MemberRow.profile_id m) uid
                                  && is_true (MemberRow.is_active m))
              (map snd (Store.project_members (db w)))))).
  { unfold select_member_projects. now rewrite omap_map. }
  assert (Hshape :
    finished (resolveVisibility org uid false) [o1; Served fresh] w /\
    calls (after (resolveVisibility org uid false) [o1; Served fresh] w)
    = calls w ++ [SelectProfiles org; SelectMemberProjects uid] /\
    projects (ui (after (resolveVisibility org uid false) [o1; Served fresh] w))
    = List.filter (fun p => not_false (ProjectRow.is_active p))
        (omap JoinedRow.projects (select_member_projects uid (db w)))).
  { unfold finished, after, run, launch.
    destruct o1 as [f1|e1]; simpl; rewrite <- app_assoc; auto. }
  destruct Hshape as (Hfin & Hcalls & Hprojects).
  cbv zeta. rewrite Hprojects, Hlist.
  do 3 (split; [assumption || reflexivity|]).
  intros p. rewrite filter_In, In_omap, not_false_iff.
  split.
  - intros [(m & Hm & Hjoin) Hact]. split; [|assumption].
    apply filter_In in Hm as [Hm Hcond].
    apply andb_true_iff in Hcond as [Hu Ha]. apply String.eqb_eq in Hu.
    exists m. repeat split; try assumption.
    destruct (MemberRow.is_active m) as [[]|]; simpl in Ha; congruence.
  - intros [(m & Hm & Hu & Ha & Hjoin) Hact]. split; [|assumption].
    exists m. split; [|assumption].
    apply filter_In. split; [assumption|].
    now rewrite Hu, Ha, String.eqb_refl.
Qed.

Lemma select_projects_In (org : string) (s : Store.t) (p : ProjectRow.t) :
  In p (select_projects org s) <-> In p (Store.projects s) /\ ProjectRow.org_id p = org.
Proof.
  unfold select_projects. now rewrite sort_by_In, filter_In, String.eqb_eq.
Qed.

(** C2.  For an admin or a manager with organisation and user id resolved
    the effect runs, and once the project query is served (whatever became
    of the directory query) the project list is the rows of the project
    table with the viewer's [org_id], all of them and nothing else, in
    ascending order of name; neither memberships nor [is_active] play a
    part. *)
Theorem privileged_sees_org_projects
    (profile : option Profile) (userId : option string) (org uid : string) :
  role <$> profile = Some admin \/ role <$> profile = Some manager ->
  truthy (profile ≫= org_id) = Some org ->
  truthy userId = Some uid ->
  exists eff, visibilityEffect profile userId = Some eff /\
  forall (o1 : Outcome) (fresh : string) (w : World),
    let w' := after eff [o1; Served fresh] w in
    let ofOrg := List.filter (fun p => String.eqb (ProjectRow.org_id p) org) (Store.projects (db w)) in
    finished eff [o1; Served fresh] w /\
    calls w' = calls w ++ [SelectProfiles org; SelectProjects org] /\
    projects (ui w')
    = sort_by (fun a b => name_le (ProjectRow.name a) (ProjectRow.name b)) ofOrg /\
    Permutation (projects (ui w')) ofOrg /\
    (forall p, In p (projects (ui w')) <->
       In p (Store.projects (db w)) /\ ProjectRow.org_id p = org) /\
    (total name_le ->
     Sorted (fun a b => name_le (ProjectRow.name a) (ProjectRow.name b) = true) (projects (ui w'))).
Proof.
  intros Hrole Horg Huid.
  assert (isAdminOrManager profile = true) as Hpriv.
  { destruct profile as [pr|]; simpl in *; [|destruct Hrole; discriminate].
    destruct Hrole as [Hr|Hr]; injection Hr as ->; reflexivity. }
  unfold visibilityEffect. rewrite Horg, Huid, Hpriv.
  eexists; split; [reflexivity|].
  intros o1 fresh w.
  assert (Hshape :
    finished (resolveVisibility org uid true) [o1; Served fresh] w /\
    calls (after (resolveVisibility org uid true) [o1; Served fresh] w)
    = calls w ++ [SelectProfiles org; SelectProjects org] /\
    projects (ui (after (resolveVisibility org uid true) [o1; Served fresh] w))
    = select_projects org (db w)).
  { unfold finished, after, run, launch.
    destruct o1 as [f1|e1]; simpl; rewrite <- app_assoc; auto. }
  destruct Hshape as (Hfin & Hcalls & Hprojects).
  cbv zeta. rewrite Hprojects.
  do 3 (split; [assumption || reflexivity|]).
  split; [apply sort_by_perm|].
  split; [intros p; apply select_projects_In|].
  intros Htot. apply sort_by_sorted. intros a b. apply Htot.
Qed.
End Visibility.

Lemma contractor_sees_member_projects_witness :
  projects (ui (after (resolveVisibility "org" "B" false) [Refused "down"; Served "x"] Scenario.fresh))
  = [Scenario.P1] /\
  projects (ui (after (resolveVisibility "org" "C" false) [Served "x"; Served "y"] Scenario.fresh))
  = [].
Proof.
  split.
  - destruct (contractor_sees_member_projects Scenario.viewerB (Some "B") "org" "B"
                eq_refl eq_refl eq_refl) as (eff & Heff & Hrun).
    change (Some (resolveVisibility "org" "B" false) = Some eff) in Heff.
    injection Heff as <-.
    destruct (Hrun (Refused "down") "x" Scenario.fresh) as (_ & _ & Hprojects & _).
    rewrite Hprojects. reflexivity.
  - destruct (contractor_sees_member_projects Scenario.viewerB (Some "C") "org" "C"
                eq_refl eq_refl eq_refl) as (eff & Heff & Hrun).
    change (Some (resolveVisibility "org" "C" false) = Some eff) in Heff.
    injection Heff as <-.
    destruct (Hrun (Served "x") "y" Scenario.fresh) as (_ & _ & Hprojects & _).
    rewrite Hprojects. reflexivity.
Defined.

Lemma privileged_sees_org_projects_witness :
  projects (ui (after (resolveVisibility "org" "A" true) [Served "x"; Served "y"] Scenario.fresh))
  = [Scenario.P1; Scenario.P2].
Proof.
  destruct (privileged_sees_org_projects Scenario.viewerA (Some "A") "org" "A"
              (or_introl eq_refl) eq_refl eq_refl) as (eff & Heff & Hrun).
  change (Some (resolveVisibility "org" "A" true) = Some eff) in Heff.
  injection Heff as <-.
  destruct (Hrun (Served "x") "y" Scenario.fresh) as (_ & _ & Hprojects & _).
  rewrite Hprojects. reflexivity.
Defined.

(** ** Failures *)

(** C3 does not hold of the effect.  An admin has the directory and both
    projects on the page; the effect runs again and the store refuses both
    queries: the directory and the project list end up empty, with the two
    messages joined by a line feed. *)
Lemma refused_resolution_empties_caches :
  let w' := after (resolveVisibility "org" "A" true)
              [Refused "profiles down"; Refused "projects down"] Scenario.settled in
  visibilityEffect Scenario.viewerA (Some "A") = Some (resolveVisibility "org" "A" true) /\
  orgProfiles (ui Scenario.settled) = [Scenario.A; Scenario.B; Scenario.C] /\
  projects (ui Scenario.settled) = [Scenario.P1; Scenario.P2] /\
  orgProfiles (ui w') = [] /\
  projects (ui w') = [] /\
  membersByProject (ui w') = membersByProject (ui Scenario.settled) /\
  msg (ui w') = ("profiles down" ++ nl ++ "projects down")%string.
Proof. now repeat split. Qed.

Section Failures.
Context {host : Host}.

(** The same failures, for any state to start from and either branch. *)
Lemma refused_resolution_in_general (org uid e1 e2 : string) (privileged : bool) (w : World) :
  let w' := after (resolveVisibility org uid privileged) [Refused e1; Refused e2] w in
  orgProfiles (ui w') = [] /\ projects (ui w') = [].
Proof. unfold after, run, launch. destruct privileged; simpl; auto. Qed.

(** The handlers, unlike the effect, return at the first refusal and leave
    the three caches alone. *)
Lemma refused_addMember_keeps_caches
    (profile : option Profile) (projectId profileId e : string) (os : list Outcome) (w : World) :
  let w' := after (addMember profile projectId profileId) (Refused e :: os) w in
  projects (ui w') = projects (ui w) /\
  orgProfiles (ui w') = orgProfiles (ui w) /\
  membersByProject (ui w') = membersByProject (ui w).
Proof.
  unfold after, run, launch, addMember. simpl.
  destruct (String.eqb profileId ""); simpl; rewrite play_Return; simpl; auto.
Qed.

Lemma refused_removeMember_keeps_caches
    (projectId memberId e : string) (os : list Outcome) (w : World) :
  let w' := after (removeMember projectId memberId) (Refused e :: os) w in
  projects (ui w') = projects (ui w) /\
  orgProfiles (ui w') = orgProfiles (ui w) /\
  membersByProject (ui w') = membersByProject (ui w).
Proof.
  unfold after, run, launch. simpl. rewrite play_Return; simpl; auto.
Qed.

Lemma refused_loadMembers_keeps_caches (projectId e : string) (os : list Outcome) (w : World) :
  let w' := after (loadMembers projectId) (Refused e :: os) w in
  projects (ui w') = projects (ui w) /\
  orgProfiles (ui w') = orgProfiles (ui w) /\
  membersByProject (ui w') = membersByProject (ui w).
Proof.
  unfold after, run, launch. simpl. rewrite play_Return; simpl; auto.
Qed.

Lemma refused_createProject_keeps_caches
    (profile : option Profile) (name e : string) (os : list Outcome) (w : World) :
  let w' := after (createProject profile name) (Refused e :: os) w in
  projects (ui w') = projects (ui w) /\
  orgProfiles (ui w') = orgProfiles (ui w) /\
  membersByProject (ui w') = membersByProject (ui w).
Proof.
  unfold after, run, launch, createProject.
  destruct (truthy (profile ≫= org_id)); simpl; [|rewrite play_Return; simpl; auto].
  destruct (isAdminOrManager profile); simpl; [|rewrite play_Return; simpl; auto].
  destruct (String.eqb (trim name) ""); simpl; rewrite play_Return; simpl; auto.
Qed.
End Failures.

(** ** Cancellation *)

Section Cancellation.
Context {host : Host}.

Lemma advance_discipline (p : Async) :
  (strict p -> forall c w,
     strict (snd (advance c p w)) /\ (c = true -> ui (fst (advance c p w)) = ui w)) /\
  (lenient p -> forall w, strict (snd (advance false p w))).
Proof.
  induction p as [|f k IH|k IH|q k IH]; simpl.
  - auto.
  - split; [tauto|]. intros Hk w. now apply IH.
  - split.
    + intros [Ht Hf] [|] w.
      * now apply (IH true).
      * split; [|discriminate]. now apply (IH false).
    + intros Hf w. now apply (IH false).
  - split; auto.
Qed.

Lemma resume_discipline (p : Async) (c : bool) (o : Outcome) (w : World) :
  strict p ->
  strict (snd (resume c o p w)) /\ (c = true -> ui (fst (resume c o p w)) = ui w).
Proof.
  destruct p as [|f k|k|q k]; simpl; auto.
  intros Hk. destruct (serve q o (db w)) as [r s'].
  destruct (advance_discipline (k r)) as [Hstrict _].
  apply (Hstrict (Hk r) c (mkWorld (ui w) s' (calls w))).
Qed.

Lemma resolveVisibility_lenient (org uid : string) (privileged : bool) :
  lenient (resolveVisibility org uid privileged).
Proof.
  unfold resolveVisibility. destruct privileged; simpl; intros r; split; simpl; auto.
Qed.

Lemma visibilityEffect_lenient (profile : option Profile) (userId : option string) (p : Async) :
  visibilityEffect profile userId = Some p -> lenient p.
Proof.
  unfold visibilityEffect.
  destruct (truthy (profile ≫= org_id)), (truthy userId); try discriminate.
  intros [= <-]. apply resolveVisibility_lenient.
Qed.

(** A handler that keeps the discipline keeps it through every event. *)
Lemma play_discipline (evs : list Event) (c : bool) (p : Async) (w : World) :
  strict p -> strict (snd (play evs c p w)).
Proof.
  revert c p w. induction evs as [|[o|] evs IH]; intros c p w Hp; simpl; auto.
  pose proof (resume_discipline p c o w Hp) as [Hp' _].
  destruct (resume c o p w) as [w' p']. now apply IH.
Qed.

(** Once cancelled it is silent, whatever arrives. *)
Lemma play_cancelled_silent (evs : list Event) (p : Async) (w : World) :
  strict p -> ui (fst (play evs true p w)) = ui w.
Proof.
  revert p w. induction evs as [|[o|] evs IH]; intros p w Hp; simpl; auto.
  pose proof (resume_discipline p true o w Hp) as [Hp' Hui].
  destruct (resume true o p w) as [w' p']. simpl in *.
  rewrite IH by assumption. now apply Hui.
Qed.

Lemma play_app (evs1 evs2 : list Event) (c : bool) (p : Async) (w : World) :
  play (evs1 ++ evs2) c p w
  = play evs2 (c || existsb (fun e => match e with Cleanup => true | _ => false end) evs1)
      (snd (play evs1 c p w)) (fst (play evs1 c p w)).
Proof.
  revert c p w. induction evs1 as [|[o|] evs1 IH]; intros c p w; simpl.
  - now rewrite orb_false_r.
  - destruct (resume c o p w) as [w' p']. apply IH.
  - rewrite IH. now rewrite orb_true_r.
Qed.

(** One resolution on its own: the responses that come after the cleanup
    leave the page as it was when the cleanup ran. *)
Lemma cancelled_resolution_is_silent
    (org uid : string) (privileged : bool) (answered : list Outcome) (late : list Event)
    (w : World) :
  ui (fst (launch (resolveVisibility org uid privileged)
             (map Respond answered ++ Cleanup :: late) w))
  = ui (after (resolveVisibility org uid privileged) answered w).
Proof.
  unfold after, run, launch.
  pose proof (proj2 (advance_discipline _) (resolveVisibility_lenient org uid privileged) w) as Hp.
  destruct (advance false (resolveVisibility org uid privileged) w) as [w1 p1].
  simpl in Hp. rewrite play_app. simpl.
  apply play_cancelled_silent. now apply play_discipline.
Qed.

Lemma runEffect_disciplined
    (profile : option Profile) (userId : option string) (w : World) (ts : list Task) :
  (forall i t, ts !! i = Some t -> cancelled t = true -> strict (cont t)) ->
  disciplined (runEffect profile userId w ts).
Proof.
  intros Hts. unfold runEffect.
  destruct (visibilityEffect profile userId) as [p|] eqn:Heff.
  - pose proof (proj2 (advance_discipline p) (visibilityEffect_lenient _ _ _ Heff) w) as Hp.
    destruct (advance false p w) as [w' p']. simpl in Hp.
    split; simpl.
    + intros i t Hi Hc. apply lookup_app_Some in Hi as [Hi|[_ Hi]]; [eauto|].
      apply list_lookup_singleton_Some in Hi as [_ <-]. discriminate.
    + intros i [= <-]. exists (mkTask false p'). split; [|assumption].
      now rewrite lookup_app_r, Nat.sub_diag.
  - split; simpl; [assumption|discriminate].
Qed.

Lemma mount_disciplined (profile : option Profile) (userId : option string) (w : World) :
  disciplined (mount profile userId w).
Proof.
  apply runEffect_disciplined. intros i t Hi. now rewrite lookup_nil in Hi.
Qed.

Lemma cleanup_discipline (pg : Page) (i : nat) (t : Task) :
  disciplined pg -> cleanup (effect pg) (tasks pg) !! i = Some t -> cancelled t = true ->
  strict (cont t).
Proof.
  intros [Hc He] Hi Ht. unfold cleanup in Hi.
  destruct (effect pg) as [j|]; [|eauto].
  destruct (decide (j = i)) as [->|Hne].
  - rewrite list_lookup_alter_eq in Hi.
    destruct (He i eq_refl) as (t0 & Ht0 & Hs). rewrite Ht0 in Hi.
    injection Hi as <-. exact Hs.
  - rewrite list_lookup_alter_ne in Hi by assumption. eauto.
Qed.

Lemma invoke_disciplined (p : Async) (pg : Page) :
  disciplined pg -> disciplined (invoke p pg).
Proof.
  intros [Hc He]. unfold invoke. destruct (advance false p (world pg)) as [w' p'].
  split; simpl.
  - intros i t Hi Ht. apply lookup_app_Some in Hi as [Hi|[_ Hi]]; [eauto|].
    apply list_lookup_singleton_Some in Hi as [_ <-]. discriminate.
  - intros i Hi. destruct (He i Hi) as (t & Ht & Hs).
    exists t. split; [now apply lookup_app_l_Some|assumption].
Qed.

Lemma deliver_disciplined (i : nat) (o : Outcome) (pg : Page) :
  disciplined pg -> disciplined (deliver i o pg).
Proof.
  intros [Hc He]. unfold deliver.
  destruct (tasks pg !! i) as [t|] eqn:Hi; [|now split].
  destruct (resume (cancelled t) o (cont t) (world pg)) as [w' p'] eqn:Hres.
  assert (strict (cont t) -> strict p') as Hkeep.
  { intros Hs. pose proof (resume_discipline (cont t) (cancelled t) o (world pg) Hs) as [Hp _].
    now rewrite Hres in Hp. }
  pose proof (lookup_lt_Some _ _ _ Hi) as Hlt.
  split; simpl.
  - intros j u Hj Hu. destruct (decide (i = j)) as [<-|Hne].
    + rewrite list_lookup_insert_eq in Hj by assumption. injection Hj as <-.
      simpl in *. eauto.
    + rewrite list_lookup_insert_ne in Hj by assumption. eauto.
  - intros j Hj. destruct (He j Hj) as (u & Hu & Hs).
    destruct (decide (i = j)) as [<-|Hne].
    + exists (mkTask (cancelled t) p'). rewrite list_lookup_insert_eq by assumption.
      split; [reflexivity|]. simpl. apply Hkeep. congruence.
    + exists u. now rewrite list_lookup_insert_ne.
Qed.

Lemma act_disciplined (a : Action) (pg : Page) :
  disciplined pg -> disciplined (act a pg).
Proof.
  intros Hpg. destruct a as [pr' uid'|i o|v| |projectId|projectId profileId|projectId memberId];
    simpl; try now apply invoke_disciplined.
  - unfold render. destruct (decide _); [exact Hpg|].
    apply runEffect_disciplined. intros i t. now apply cleanup_discipline.
  - now apply deliver_disciplined.
  - exact Hpg.
  - destruct (String.eqb profileId ""); [exact Hpg|now apply invoke_disciplined].
Qed.

Lemma acts_disciplined (l : list Action) (pg : Page) :
  disciplined pg -> disciplined (acts l pg).
Proof.
  revert pg. induction l as [|a l IH]; intros pg Hpg; simpl; [assumption|].
  apply IH. now apply act_disciplined.
Qed.
End Cancellation.

Section Superseded.
Context {host : Host}.

(** What the cleanup has set stays set. *)
Lemma runEffect_superseded
    (profile : option Profile) (userId : option string) (w : World) (ts : list Task) (i : nat) :
  (exists t, ts !! i = Some t /\ cancelled t = true) ->
  superseded i (runEffect profile userId w ts).
Proof.
  intros (t & Hi & Ht). unfold runEffect, superseded.
  destruct (visibilityEffect profile userId) as [p|]; [|now exists t].
  destruct (advance false p w) as [w' p']. simpl.
  exists t. split; [now apply lookup_app_l_Some|assumption].
Qed.

Lemma cleanup_superseded (effect : option nat) (ts : list Task) (i : nat) :
  (exists t, ts !! i = Some t /\ cancelled t = true) ->
  exists t, cleanup effect ts !! i = Some t /\ cancelled t = true.
Proof.
  intros (t & Hi & Ht). destruct effect as [j|]; simpl; [|now exists t].
  destruct (decide (j = i)) as [->|Hne].
  - exists (mkTask true (cont t)). now rewrite list_lookup_alter_eq, Hi.
  - exists t. now rewrite list_lookup_alter_ne.
Qed.

Lemma invoke_superseded (p : Async) (i : nat) (pg : Page) :
  superseded i pg -> superseded i (invoke p pg).
Proof.
  intros (t & Hi & Ht). unfold invoke, superseded.
  destruct (advance false p (world pg)) as [w' p']. simpl.
  exists t. split; [now apply lookup_app_l_Some|assumption].
Qed.

Lemma act_superseded (a : Action) (i : nat) (pg : Page) :
  superseded i pg -> superseded i (act a pg).
Proof.
  intros Hpg. destruct a as [pr' uid'|j o|v| |projectId|projectId profileId|projectId memberId];
    simpl; try now apply invoke_superseded.
  - unfold render. destruct (decide _); [exact Hpg|].
    now apply runEffect_superseded, cleanup_superseded.
  - destruct Hpg as (t & Hi & Ht). unfold deliver, superseded.
    destruct (tasks pg !! j) as [u|] eqn:Hj; [|now exists t].
    destruct (resume (cancelled u) o (cont u) (world pg)) as [w' p']. simpl.
    destruct (decide (j = i)) as [->|Hne].
    + exists (mkTask (cancelled u) p').
      rewrite list_lookup_insert_eq by (now apply lookup_lt_Some in Hj).
      split; [reflexivity|]. simpl. congruence.
    + exists t. now rewrite list_lookup_insert_ne.
  - exact Hpg.
  - destruct (String.eqb profileId ""); [exact Hpg|now apply invoke_superseded].
Qed.

Lemma acts_superseded (l : list Action) (i : nat) (pg : Page) :
  superseded i pg -> superseded i (acts l pg).
Proof.
  revert pg. induction l as [|a l IH]; intros pg Hpg; simpl; [assumption|].
  apply IH. now apply act_superseded.
Qed.

(** A response for a cancelled task of a disciplined page changes nothing
    on the page. *)
Lemma deliver_superseded_silent (i : nat) (o : Outcome) (pg : Page) :
  disciplined pg -> superseded i pg ->
  ui (world (deliver i o pg)) = ui (world pg).
Proof.
  intros [Hc _] (t & Hi & Ht). unfold deliver. rewrite Hi.
  pose proof (resume_discipline (cont t) (cancelled t) o (world pg) (Hc i t Hi Ht)) as [_ Hui].
  destruct (resume (cancelled t) o (cont t) (world pg)) as [w' p']. simpl in *.
  now apply Hui.
Qed.

(** C4.  Take the page at any point of its life, with the task [i] of its
    current resolution, and let a render bring a viewer whose identity
    tuple differs.  From then on, whatever else happens on the page, a
    response that reaches the superseded resolution leaves the page state
    as it finds it: project list, directory, membership map and message
    buffer are those of the moment before the response. *)
Theorem superseded_resolution_never_writes
    (profile0 : option Profile) (userId0 : option string) (w0 : World)
    (before later : list Action)
    (profile' : option Profile) (userId' : option string) (i : nat) (o : Outcome) :
  let pg := acts before (mount profile0 userId0 w0) in
  effect pg = Some i ->
  depsOf profile' userId' <> depsOf (profile pg) (userId pg) ->
  let pg' := acts later (render profile' userId' pg) in
  ui (world (deliver i o pg')) = ui (world pg').
Proof.
  intros pg Heff Hdeps pg'.
  assert (disciplined pg) as Hpg by apply acts_disciplined, mount_disciplined.
  apply deliver_superseded_silent.
  - apply acts_disciplined. apply (act_disciplined (Viewer profile' userId')), Hpg.
  - apply acts_superseded. unfold render.
    destruct (decide _) as [Heq|_]; [contradiction|].
    apply runEffect_superseded.
    destruct Hpg as [_ He]. destruct (He i Heff) as (t & Hi & _).
    rewrite Heff. simpl. exists (mkTask true (cont t)).
    now rewrite list_lookup_alter_eq, Hi.
Qed.
End Superseded.

(** The scenario of the contractor [B] whose slow resolution is overtaken
    by the admin [A]: the responses for [A] fill the page, and the late
    responses for [B] change nothing. *)
Lemma superseded_resolution_never_writes_witness :
  let pg' :=
    acts [Deliver 1 (Served "a"); Deliver 1 (Served "b"); Deliver 0 (Served "c")]
      (render Scenario.viewerA (Some "A") (mount Scenario.viewerB (Some "B") Scenario.fresh)) in
  projects (ui (world pg')) = [Scenario.P1; Scenario.P2] /\
  projects (ui (world (deliver 0 (Served "d") pg'))) = [Scenario.P1; Scenario.P2].
Proof.
  split; [reflexivity|].
  rewrite (superseded_resolution_never_writes Scenario.viewerB (Some "B") Scenario.fresh []
             [Deliver 1 (Served "a"); Deliver 1 (Served "b"); Deliver 0 (Served "c")]
             Scenario.viewerA (Some "A") 0 (Served "d")).
  - reflexivity.
  - reflexivity.
  - vm_compute. discriminate.
Defined.

(** Without the change of viewer the same late responses do reach the page. *)
Example unsuperseded_resolution_writes :
  projects (ui (world (acts [Deliver 0 (Served "c"); Deliver 0 (Served "d")]
                         (mount Scenario.viewerB (Some "B") Scenario.fresh))))
  = [Scenario.P1].
Proof. reflexivity. Qed.

(** A name of three spaces: nothing is issued and nothing changes. *)
Example createProject_blank_name :
  trim "   " = "" /\
  run (createProject Scenario.viewerA "   ") [Served "P3"] Scenario.settled
  = (Scenario.settled, Return).
Proof. split; reflexivity. Qed.

(** An admin creates a project whose name sorts between the two on the page. *)
Example createProject_sorted_position :
  map ProjectRow.name
    (projects (ui (after (createProject Scenario.viewerA "Alpine") [Served "P3"] Scenario.settled)))
  = ["Alpha"; "Alpine"; "Beta"].
Proof. reflexivity. Qed.

(** * Further properties of the page *)

(** ** The effect *)

Section Resolution.
Context {host : Host}.

(** X1.  A viewer for whom the page shows the login prompt, or whose
    profile has no organisation, starts no resolution: mounting the page
    issues no request, changes no state and leaves no task behind. *)
Theorem unresolved_viewer_loads_nothing
    (profLoading : bool) (profile : option Profile) (userId : option string) (w : World) :
  screen profLoading profile userId = PleaseLogIn \/ truthy (profile ≫= org_id) = None ->
  visibilityEffect profile userId = None /\
  mount profile userId w = mkPage w profile userId [] None.
Proof.
  intros Hwho.
  assert (visibilityEffect profile userId = None) as Hnone.
  { unfold visibilityEffect. destruct Hwho as [Hscreen|Horg].
    - unfold screen in Hscreen. destruct profLoading; [discriminate|].
      destruct profile as [pr|]; simpl.
      + destruct (truthy userId); [discriminate|]. now destruct (truthy (org_id pr)).
      + reflexivity.
    - now rewrite Horg. }
  split; [assumption|]. unfold mount, runEffect. now rewrite Hnone.
Qed.

Lemma select_profiles_In (org : string) (s : Store.t) (x : ProfileRow.t) :
  In x (select_profiles org s) <->
  In (org, x) (Store.profiles s) /\ ProfileRow.is_active x = Some true.
Proof.
  unfold select_profiles. rewrite sort_by_In, in_map_iff. split.
  - intros ([o y] & Hy & Hin). simpl in Hy. subst y.
    apply filter_In in Hin as [Hin Hc]. simpl in Hc.
    apply andb_true_iff in Hc as [Ho Ha]. apply String.eqb_eq in Ho. subst o.
    split; [assumption|]. destruct (ProfileRow.is_active x) as [[]|]; simpl in Ha; congruence.
  - intros [Hin Ha]. exists (org, x). split; [reflexivity|].
    apply filter_In. split; [assumption|]. simpl. now rewrite String.eqb_refl, Ha.
Qed.

(** X2.  When the directory query is served, whatever the viewer's role
    and whatever becomes of the project query, the directory on the page is
    the store's profiles of the viewer's organisation with
    [is_active = true], and nothing else; the candidate filter on
    [is_active] then removes nobody. *)
Theorem resolution_loads_active_directory
    (org uid : string) (privileged : bool) (fresh : string) (o2 : Outcome) (w : World) :
  let w' := after (resolveVisibility org uid privileged) [Served fresh; o2] w in
  Permutation (orgProfiles (ui w'))
    (map snd (List.filter (fun r => String.eqb (fst r) org && is_true (ProfileRow.is_active (snd r)))
                (Store.profiles (db w)))) /\
  (forall x, In x (orgProfiles (ui w')) <->
     In (org, x) (Store.profiles (db w)) /\ ProfileRow.is_active x = Some true) /\
  activeOrgProfiles (ui w') = orgProfiles (ui w').
Proof.
  assert (orgProfiles (ui (after (resolveVisibility org uid privileged) [Served fresh; o2] w))
          = select_profiles org (db w)) as Hdir.
  { unfold after, run, launch. destruct privileged, o2; reflexivity. }
  cbv zeta. unfold activeOrgProfiles. rewrite Hdir.
  split; [apply sort_by_perm|].
  split; [intros x; apply select_profiles_In|].
  apply forallb_filter_id, forallb_forall. intros x Hx.
  apply select_profiles_In in Hx as [_ Ha]. now rewrite Ha.
Qed.

(** X3.  A resolution always issues both of its queries, the second one
    whatever the first came to, and nothing else; it only reads the store,
    and on the page it leaves the membership map, the name input and the
    busy flag alone. *)
Theorem resolution_queries_and_frame
    (org uid : string) (privileged : bool) (o1 o2 : Outcome) (w : World) :
  let w' := after (resolveVisibility org uid privileged) [o1; o2] w in
  finished (resolveVisibility org uid privileged) [o1; o2] w /\
  calls w' = calls w ++ [SelectProfiles org;
                         if privileged then SelectProjects org else SelectMemberProjects uid] /\
  db w' = db w /\
  membersByProject (ui w') = membersByProject (ui w) /\
  newName (ui w') = newName (ui w) /\
  busy (ui w') = busy (ui w).
Proof.
  unfold finished, after, run, launch.
  destruct privileged, o1, o2; simpl; rewrite <- app_assoc; now repeat split.
Qed.

(** X4.  The message after a resolution tells every refusal and nothing
    older: empty when both queries were served, the store's message when
    one was refused, and the two messages on two lines, the directory's
    first, when both were (a directory message that is empty leaves the
    project message alone). *)
Theorem resolution_reports_every_failure
    (org uid : string) (privileged : bool) (o1 o2 : Outcome) (w : World) :
  msg (ui (after (resolveVisibility org uid privileged) [o1; o2] w))
  = match o1, o2 with
    | Served _, Served _ => ""
    | Refused e1, Served _ => e1
    | Served _, Refused e2 => e2
    | Refused e1, Refused e2 => if String.eqb e1 "" then e2 else (e1 ++ nl ++ e2)%string
    end.
Proof.
  unfold after, run, launch. destruct privileged, o1, o2; reflexivity.
Qed.
End Resolution.

Lemma unresolved_viewer_loads_nothing_witness :
  screen false None (Some "A") = PleaseLogIn /\
  mount None (Some "A") Scenario.settled = mkPage Scenario.settled None (Some "A") [] None /\
  screen false Scenario.strayAdmin (Some "A") = Main /\
  mount Scenario.strayAdmin (Some "A") Scenario.settled
  = mkPage Scenario.settled Scenario.strayAdmin (Some "A") [] None.
Proof.
  split; [reflexivity|].
  split; [apply (unresolved_viewer_loads_nothing false None (Some "A")); left; reflexivity|].
  split; [reflexivity|].
  apply (unresolved_viewer_loads_nothing false Scenario.strayAdmin (Some "A")).
  right; reflexivity.
Defined.

(** ** Adding and removing members *)

Section Membership.
Context {host : Host}.

(** X5.  Picking the blank entry: [addMember] with an empty profile id
    issues no request and leaves store, project list, directory and
    membership map alone, but it has already emptied the message. *)
Theorem addMember_blank_only_clears_message
    (profile : option Profile) (projectId : string) (os : list Outcome) (w : World) :
  let w' := after (addMember profile projectId "") os w in
  finished (addMember profile projectId "") os w /\
  calls w' = calls w /\
  db w' = db w /\
  projects (ui w') = projects (ui w) /\
  orgProfiles (ui w') = orgProfiles (ui w) /\
  membersByProject (ui w') = membersByProject (ui w) /\
  msg (ui w') = "".
Proof.
  unfold finished, after, run, launch. simpl. rewrite play_Return. now repeat split.
Qed.

Lemma select_members_app_row
    (projectId : string) (s : Store.t) (org : option string) (m : MemberRow.t) :
  select_members projectId
    (Store.mk (Store.profiles s) (Store.projects s) (Store.project_members s ++ [(org, m)]))
  = select_members projectId s
    ++ (if String.eqb (MemberRow.project_id m) projectId && is_true (MemberRow.is_active m)
        then [m] else []).
Proof.
  unfold select_members. simpl. now rewrite map_app, List.filter_app.
Qed.

Lemma addMember_loaded_set
    (profile : option Profile) (projectId profileId f g : string) (w : World) :
  profileId <> "" ->
  membersByProject (ui (after (addMember profile projectId profileId) [Served f; Served g] w))
    !! projectId
  = Some (select_members projectId (db w) ++ [MemberRow.mk f projectId profileId (Some true)]).
Proof.
  intros Hne. apply String.eqb_neq in Hne.
  unfold after, run, launch, addMember. simpl. rewrite Hne. simpl.
  rewrite lookup_insert_eq. f_equal. unfold insert_member.
  rewrite select_members_app_row. simpl. now rewrite String.eqb_refl.
Qed.

(** X6.  Adding a member, when the store serves the insert and the reload:
    the requests are the insert and then the reload; the membership table
    gains one row, for the project and the profile given, with
    [is_active = true] and the organisation of the viewer's profile, and
    keeps every row it had; the project's loaded set is made of the active
    rows the project had and the new one, in whatever order. *)
Theorem addMember_adds_active_member
    (profile : option Profile) (projectId profileId f g : string) (w : World) :
  profileId <> "" ->
  let w' := after (addMember profile projectId profileId) [Served f; Served g] w in
  let row := MemberRow.mk f projectId profileId (Some true) in
  finished (addMember profile projectId profileId) [Served f; Served g] w /\
  calls w' = calls w ++ [InsertMember (profile ≫= org_id) projectId profileId true;
                         SelectMembers projectId] /\
  Permutation (Store.project_members (db w'))
    ((profile ≫= org_id, row) :: Store.project_members (db w)) /\
  (exists loaded,
     membersByProject (ui w') !! projectId = Some loaded /\
     Permutation loaded (row :: select_members projectId (db w)) /\
     (forall m, In m loaded <->
        m = row \/
        In m (map snd (Store.project_members (db w))) /\
        MemberRow.project_id m = projectId /\ MemberRow.is_active m = Some true)) /\
  msg (ui w') = "".
Proof.
  intros Hne. pose proof (addMember_loaded_set profile projectId profileId f g w Hne) as Hloaded.
  apply String.eqb_neq in Hne. cbv zeta.
  split; [|split; [|split; [|split]]].
  - unfold finished, run, launch, addMember. simpl. now rewrite Hne.
  - unfold after, run, launch, addMember. simpl. rewrite Hne. simpl. now rewrite <- app_assoc.
  - unfold after, run, launch, addMember. simpl. rewrite Hne. simpl.
    symmetry. apply Permutation_cons_append.
  - eexists. split; [exact Hloaded|]. split; [symmetry; apply Permutation_cons_append|].
    intros m. rewrite in_app_iff, select_members_In. simpl. intuition.
  - unfold after, run, launch, addMember. simpl. now rewrite Hne.
Qed.

(** X7.  Once a member has been added and both the insert and the reload
    have been served, the picker of that project is rendered and does not
    offer the profile, under any focus. *)
Theorem added_member_is_no_candidate
    (profile : option Profile) (projectId profileId f g : string) (w : World)
    (focusUser : string) (p : ProjectRow.t) :
  profileId <> "" ->
  ProjectRow.id p = projectId ->
  let w' := after (addMember profile projectId profileId) [Served f; Served g] w in
  exists candidates,
    candidatePeople (ui w') focusUser p = Value candidates /\
    forall x, In x candidates -> ProfileRow.id x <> profileId.
Proof.
  intros Hne Hp w'.
  pose proof (addMember_loaded_set profile projectId profileId f g w Hne) as Hloaded.
  fold w' in Hloaded. rewrite <- Hp in Hloaded.
  exists (candidates_spec (ui w') focusUser p).
  split; [apply (candidatePeople_refines _ _ _ _ (membersOf_loaded _ _ _ Hloaded))|].
  intros x Hx Hid. apply candidates_spec_In in Hx as (_ & _ & _ & Hnot).
  apply Hnot. unfold alreadyMembers. rewrite Hloaded, map_app, in_app_iff.
  right. simpl. auto.
Qed.

(** X8.  When the store refuses the insert, [addMember] shows the store's
    message and stops: no reload is requested, and store, project list,
    directory and membership map are as before. *)
Theorem addMember_refused_stops
    (profile : option Profile) (projectId profileId e : string) (os : list Outcome) (w : World) :
  profileId <> "" ->
  let w' := after (addMember profile projectId profileId) (Refused e :: os) w in
  finished (addMember profile projectId profileId) (Refused e :: os) w /\
  calls w' = calls w ++ [InsertMember (profile ≫= org_id) projectId profileId true] /\
  db w' = db w /\
  msg (ui w') = e /\
  projects (ui w') = projects (ui w) /\
  orgProfiles (ui w') = orgProfiles (ui w) /\
  membersByProject (ui w') = membersByProject (ui w).
Proof.
  intros Hne. apply String.eqb_neq in Hne.
  unfold finished, after, run, launch, addMember. simpl. rewrite Hne. simpl.
  rewrite play_Return. now repeat split.
Qed.

Lemma update_member_active_unknown (memberId : string) (active : bool) (s : Store.t) :
  (forall r, In r (Store.project_members s) -> MemberRow.id (snd r) <> memberId) ->
  update_member_active memberId active s = s.
Proof.
  intros Hfree. unfold update_member_active. destruct s as [pf pj pm]; simpl in *. f_equal.
  rewrite <- (map_id pm) at 2. apply map_ext_in. intros r Hr.
  apply Hfree, String.eqb_neq in Hr. now rewrite Hr.
Qed.

(** X9.  Removing a member id that no row of the table carries changes
    nothing in the store; the project's members are reloaded all the
    same. *)
Theorem removeMember_unknown_id
    (projectId memberId f g : string) (w : World) :
  (forall r, In r (Store.project_members (db w)) -> MemberRow.id (snd r) <> memberId) ->
  let w' := after (removeMember projectId memberId) [Served f; Served g] w in
  db w' = db w /\
  calls w' = calls w ++ [UpdateMemberActive memberId false; SelectMembers projectId] /\
  membersByProject (ui w') !! projectId = Some (select_members projectId (db w)).
Proof.
  intros Hfree. unfold after, run, launch. simpl.
  rewrite update_member_active_unknown by assumption.
  split; [reflexivity|]. split; [now rewrite <- app_assoc|]. apply lookup_insert_eq.
Qed.

Lemma select_members_add_remove
    (projectId pid' profileId f : string) (org : option string) (active : bool) (s : Store.t) :
  (forall r, In r (Store.project_members s) -> MemberRow.id (snd r) <> f) ->
  select_members projectId
    (update_member_active f false (insert_member f org pid' profileId active s))
  = select_members projectId s.
Proof.
  intros Hfree. unfold select_members, update_member_active, insert_member. simpl.
  rewrite !map_app, List.filter_app. simpl. rewrite String.eqb_refl. simpl.
  rewrite andb_false_r, app_nil_r. f_equal. rewrite map_map. apply map_ext_in.
  intros r Hr. apply Hfree, String.eqb_neq in Hr. now rewrite Hr.
Qed.

(** X10.  Adding a member and then removing the row that was added, under
    an id the table did not use before, brings the project's loaded set
    back to the active rows the store had at the start; the added row stays
    in the store, inactive. *)
Theorem addMember_removeMember_round_trip
    (profile : option Profile) (projectId profileId f g h k : string) (w : World) :
  profileId <> "" ->
  (forall r, In r (Store.project_members (db w)) -> MemberRow.id (snd r) <> f) ->
  let w1 := after (addMember profile projectId profileId) [Served f; Served g] w in
  let w2 := after (removeMember projectId f) [Served h; Served k] w1 in
  membersByProject (ui w2) !! projectId = Some (select_members projectId (db w)) /\
  In (profile ≫= org_id, MemberRow.mk f projectId profileId (Some false))
     (Store.project_members (db w2)) /\
  length (Store.project_members (db w2)) = S (length (Store.project_members (db w))).
Proof.
  intros Hne Hfree. apply String.eqb_neq in Hne.
  unfold after, run, launch, addMember. simpl. rewrite Hne. simpl.
  split; [|split].
  - rewrite lookup_insert_eq. f_equal. now apply select_members_add_remove.
  - rewrite map_app, in_app_iff. right. simpl. rewrite String.eqb_refl. now left.
  - rewrite length_map, length_app. simpl. lia.
Qed.

Lemma select_members_after_update_In
    (projectId memberId : string) (s : Store.t) (m : MemberRow.t) :
  In m (select_members projectId (update_member_active memberId false s)) ->
  MemberRow.id m <> memberId /\
  exists org, In (org, m) (Store.project_members s).
Proof.
  intros Hin. split; [now apply select_members_after_removal in Hin|].
  apply select_members_In in Hin as (Hin & _ & Hact).
  unfold update_member_active in Hin; simpl in Hin.
  rewrite map_map in Hin. apply in_map_iff in Hin as ([org m0] & Hm & Hr).
  simpl in Hm. destruct (String.eqb (MemberRow.id m0) memberId).
  - subst m. simpl in Hact. discriminate.
  - simpl in Hm. subst m0. now exists org.
Qed.

(** X11.  After a member is removed and the reload served, the profile is
    offered again for the project, provided it is in the directory, not
    inactive, within the focus, and the removed row was its only active
    membership of the project. *)
Theorem removed_member_is_candidate_again
    (projectId memberId f g : string) (w : World)
    (focusUser : string) (p : ProjectRow.t) (x : ProfileRow.t) :
  ProjectRow.id p = projectId ->
  In x (orgProfiles (ui w)) ->
  ProfileRow.is_active x <> Some false ->
  focusUser = "" \/ ProfileRow.id x = focusUser ->
  (forall org m, In (org, m) (Store.project_members (db w)) ->
     MemberRow.project_id m = projectId -> MemberRow.profile_id m = ProfileRow.id x ->
     MemberRow.is_active m = Some true -> MemberRow.id m = memberId) ->
  let w' := after (removeMember projectId memberId) [Served f; Served g] w in
  exists candidates,
    candidatePeople (ui w') focusUser p = Value candidates /\ In x candidates.
Proof.
  intros Hp Hx Hact Hfocus Honly w'.
  assert (membersByProject (ui w') !! ProjectRow.id p
          = Some (select_members projectId (update_member_active memberId false (db w))))
    as Hloaded.
  { rewrite Hp. unfold w', after, run, launch. simpl. apply lookup_insert_eq. }
  exists (candidates_spec (ui w') focusUser p).
  split; [apply (candidatePeople_refines _ _ _ _ (membersOf_loaded _ _ _ Hloaded))|].
  apply candidates_spec_In.
  assert (orgProfiles (ui w') = orgProfiles (ui w)) as -> by reflexivity.
  do 3 (split; [assumption|]).
  unfold alreadyMembers. rewrite Hloaded.
  intros Hin. apply in_map_iff in Hin as (m & Hprof & Hm).
  pose proof Hm as Hsel. apply select_members_In in Hsel as (_ & Hproj & Hactive).
  apply select_members_after_update_In in Hm as (Hid & org & Hrow).
  apply Hid. now apply (Honly org m).
Qed.
End Membership.

Lemma addMember_adds_active_member_witness :
  exists loaded,
    membersByProject
      (ui (after (addMember Scenario.viewerA "P1" "C") [Served "m2"; Served "x"] Scenario.settled))
      !! "P1"
    = Some loaded /\
    In Scenario.BP1 loaded /\ In (MemberRow.mk "m2" "P1" "C" (Some true)) loaded /\
    length loaded = 2.
Proof.
  destruct (addMember_adds_active_member Scenario.viewerA "P1" "C" "m2" "x" Scenario.settled)
    as (_ & _ & _ & (loaded & Hloaded & Hperm & Hin) & _).
  - discriminate.
  - exists loaded. split; [exact Hloaded|].
    split; [apply Hin; right; simpl; auto|].
    split; [apply Hin; now left|].
    now rewrite (Permutation_length Hperm).
Defined.

Lemma added_member_is_no_candidate_witness :
  candidatePeople Scenario.loaded "" Scenario.P1 = Value [Scenario.A; Scenario.C] /\
  exists candidates,
    candidatePeople
      (ui (after (addMember Scenario.viewerA "P1" "C") [Served "m2"; Served "x"] Scenario.settled))
      "" Scenario.P1
    = Value candidates /\
    ~ In Scenario.C candidates.
Proof.
  split; [reflexivity|].
  destruct (added_member_is_no_candidate Scenario.viewerA "P1" "C" "m2" "x" Scenario.settled
              "" Scenario.P1) as (candidates & Hc & Hnot); [discriminate|reflexivity|].
  exists candidates. split; [exact Hc|].
  intros Hin. now apply (Hnot Scenario.C Hin).
Defined.

(** With the insert served and the reload refused, the loaded set is the
    old one and the profile is still offered. *)
Example refused_reload_keeps_candidate :
  candidatePeople
    (ui (after (addMember Scenario.viewerA "P1" "C") [Served "m2"; Refused "down"] Scenario.settled))
    "" Scenario.P1
  = Value [Scenario.A; Scenario.C].
Proof. reflexivity. Qed.

Lemma addMember_refused_stops_witness :
  msg (ui (after (addMember Scenario.viewerA "P1" "C") [Refused "denied"] Scenario.settled))
  = "denied".
Proof.
  destruct (addMember_refused_stops Scenario.viewerA "P1" "C" "denied" [] Scenario.settled)
    as (_ & _ & _ & Hmsg & _).
  - discriminate.
  - exact Hmsg.
Defined.

Lemma removeMember_unknown_id_witness :
  db (after (removeMember "P1" "m9") [Served "x"; Served "y"] Scenario.settled) = Scenario.store.
Proof.
  destruct (removeMember_unknown_id "P1" "m9" "x" "y" Scenario.settled) as [Hdb _].
  - intros r [<-|[]]. discriminate.
  - exact Hdb.
Defined.

Lemma addMember_removeMember_round_trip_witness :
  membersByProject
    (ui (after (removeMember "P1" "m2") [Served "y"; Served "z"]
           (after (addMember Scenario.viewerA "P1" "C") [Served "m2"; Served "x"]
              Scenario.settled)))
    !! "P1"
  = Some [Scenario.BP1].
Proof.
  destruct (addMember_removeMember_round_trip Scenario.viewerA "P1" "C" "m2" "x" "y" "z"
              Scenario.settled) as [Hloaded _].
  - discriminate.
  - intros r [<-|[]]. discriminate.
  - rewrite Hloaded. reflexivity.
Defined.

Lemma removed_member_is_candidate_again_witness :
  candidatePeople Scenario.loaded "" Scenario.P1 = Value [Scenario.A; Scenario.C] /\
  exists candidates,
    candidatePeople
      (ui (after (removeMember "P1" "m1") [Served "x"; Served "y"] Scenario.settled))
      "" Scenario.P1
    = Value candidates /\
    In Scenario.B candidates.
Proof.
  split.
  - reflexivity.
  - apply (removed_member_is_candidate_again "P1" "m1" "x" "y" Scenario.settled
             "" Scenario.P1 Scenario.B).
    + reflexivity.
    + simpl; auto.
    + discriminate.
    + now left.
    + intros org m [[= <- <-]|[]] _ _ _. reflexivity.
Defined.

(** ** Reloading *)

Section Reload.
Context {host : Host}.

(** X12.  Loading the members of a project twice in a row is the same as
    loading them once: page state and store after the second load are those
    after the first.  If the second load is refused instead, the set of the
    first load stays. *)
Theorem loadMembers_twice (projectId f1 f2 e : string) (w : World) :
  let w1 := after (loadMembers projectId) [Served f1] w in
  ui (after (loadMembers projectId) [Served f2] w1) = ui w1 /\
  db (after (loadMembers projectId) [Served f2] w1) = db w1 /\
  membersByProject (ui (after (loadMembers projectId) [Refused e] w1)) = membersByProject (ui w1).
Proof.
  unfold after, run, launch. simpl. split; [|now split].
  unfold setMembersByProject, setMsg. simpl. f_equal. apply insert_insert_eq.
Qed.

Lemma renderSection_ext
    (profile : option Profile) (s1 s2 : PageState) (focusUser : string) (q : ProjectRow.t) :
  orgProfiles s1 = orgProfiles s2 ->
  membersByProject s1 !! ProjectRow.id q = membersByProject s2 !! ProjectRow.id q ->
  renderSection profile s1 focusUser q = renderSection profile s2 focusUser q.
Proof.
  intros Hdir Hmap.
  unfold renderSection, candidatePeople, membersOf, loadLabel, memberName.
  now rewrite Hdir, Hmap.
Qed.

(** X13.  What a load does to the section of its project: served, the
    section is rendered, its button reads "Refresh members", also when the
    project has no active member, and the line for an empty list is shown
    exactly when the viewer can manage members and the answer is empty;
    refused, the section is what it was.  The sections of the other
    projects are what they were in both cases. *)
Theorem section_after_load
    (profile : option Profile) (focusUser projectId : string) (o : Outcome) (w : World)
    (p q : ProjectRow.t) :
  ProjectRow.id p = projectId ->
  ProjectRow.id q <> projectId ->
  let w' := after (loadMembers projectId) [o] w in
  match o with
  | Served _ =>
      exists view,
        renderSection profile (ui w') focusUser p = Value view /\
        loadButton view = "Refresh members" /\
        emptyLine view
        = isAdminOrManager profile
          && match select_members projectId (db w) with [] => true | _ => false end
  | Refused _ =>
      renderSection profile (ui w') focusUser p = renderSection profile (ui w) focusUser p
  end /\
  renderSection profile (ui w') focusUser q = renderSection profile (ui w) focusUser q.
Proof.
  intros Hp Hq w'. split.
  - destruct o as [f|e]; [|now apply renderSection_ext].
    assert (membersByProject (ui w') !! ProjectRow.id p
            = Some (select_members projectId (db w))) as Hloaded.
    { rewrite Hp. unfold w', after, run, launch. simpl. apply lookup_insert_eq. }
    unfold renderSection.
    rewrite (candidatePeople_refines _ _ _ _ (membersOf_loaded _ _ _ Hloaded)).
    rewrite (membersOf_loaded _ _ _ Hloaded). unfold loadLabel. rewrite Hloaded.
    destruct (isAdminOrManager profile); [|eexists; now repeat split].
    destruct (select_members projectId (db w)); eexists; now repeat split.
  - apply renderSection_ext; [now destruct o|].
    unfold w', after, run, launch. destruct o; simpl; [|reflexivity].
    apply lookup_insert_ne. congruence.
Qed.
End Reload.

Lemma section_after_load_witness :
  renderSection Scenario.viewerA Scenario.loaded "" Scenario.P2
  = Value (mkSectionView "Load members" (Some [Scenario.A; Scenario.B; Scenario.C]) true []) /\
  renderSection Scenario.viewerA
    (ui (after (loadMembers "P2") [Served "x"] Scenario.settled)) "" Scenario.P2
  = Value (mkSectionView "Refresh members" (Some [Scenario.A; Scenario.B; Scenario.C]) true []) /\
  renderSection Scenario.viewerB
    (ui (after (loadMembers "P2") [Served "x"] Scenario.settled)) "" Scenario.P1
  = renderSection Scenario.viewerB Scenario.loaded "" Scenario.P1.
Proof.
  split; [reflexivity|]. split; [reflexivity|].
  destruct (section_after_load Scenario.viewerB "" "P2" (Served "x") Scenario.settled
              Scenario.P2 Scenario.P1) as [_ Hother]; [reflexivity|discriminate|].
  exact Hother.
Defined.

(** ** White space, again *)

Lemma trimEnd_first (s : string) (c : ascii) :
  firstUnit (trimEnd s) = Some c -> firstUnit s = Some c.
Proof.
  destruct s as [|d s]; simpl; [discriminate|].
  destruct (trimEnd s); [destruct (is_js_space d)|]; simpl; congruence.
Qed.

Lemma trimStart_first (s : string) (c : ascii) :
  firstUnit (trimStart s) = Some c -> is_js_space c = false.
Proof.
  induction s as [|d s IH]; simpl; [discriminate|].
  destruct (is_js_space d) eqn:Hd; [assumption|]. simpl. congruence.
Qed.

Lemma trimEnd_last (s : string) (c : ascii) :
  lastUnit (trimEnd s) = Some c -> is_js_space c = false.
Proof.
  revert c. induction s as [|d s IH]; intros c; simpl; [discriminate|].
  destruct (trimEnd s) as [|d' t] eqn:Ht.
  - destruct (is_js_space d) eqn:Hd; simpl; congruence.
  - change (lastUnit (String d (String d' t)))
      with (match lastUnit (String d' t) with None => Some d | Some x => Some x end).
    destruct (lastUnit (String d' t)) as [x|] eqn:Hl.
    + intros [= <-]. now apply IH.
    + simpl in Hl. destruct (lastUnit t); discriminate.
Qed.

Lemma trim_clean (s : string) :
  (forall c, firstUnit (trim s) = Some c -> is_js_space c = false) /\
  (forall c, lastUnit (trim s) = Some c -> is_js_space c = false).
Proof.
  unfold trim. split; intros c Hc.
  - apply trimEnd_first in Hc. now apply trimStart_first in Hc.
  - now apply trimEnd_last in Hc.
Qed.

Section Creating.
Context {host : Host}.

(** X14.  The only request [createProject] ever issues is one insert of a
    project into the organisation of the viewer's profile, active, under
    the trimmed input: a name that is not empty and neither begins nor ends
    with white space. *)
Theorem createProject_inserts_clean_name
    (profile : option Profile) (name : string) (os : list Outcome) (w : World) (q : Query) :
  In q (calls (after (createProject profile name) os w)) ->
  In q (calls w) \/
  exists org,
    q = InsertProject org (trim name) true /\
    truthy (profile ≫= org_id) = Some org /\
    isAdminOrManager profile = true /\
    trim name <> "" /\
    (forall c, firstUnit (trim name) = Some c -> is_js_space c = false) /\
    (forall c, lastUnit (trim name) = Some c -> is_js_space c = false).
Proof.
  unfold after, run, launch, createProject.
  destruct (truthy (profile ≫= org_id)) as [org|] eqn:Horg;
    [|simpl; rewrite play_Return; auto].
  destruct (isAdminOrManager profile) eqn:Hpriv; simpl; [|rewrite play_Return; auto].
  destruct (String.eqb_spec (trim name) "") as [Hblank|Hname]; simpl;
    [rewrite play_Return; auto|].
  assert (In q (calls w ++ [InsertProject org (trim name) true]) ->
          In q (calls w) \/
          exists org0,
            q = InsertProject org0 (trim name) true /\ Some org = Some org0 /\ true = true /\
            trim name <> "" /\
            (forall c, firstUnit (trim name) = Some c -> is_js_space c = false) /\
            (forall c, lastUnit (trim name) = Some c -> is_js_space c = false)) as Hcalls.
  { intros Hq. apply in_app_iff in Hq as [Hq|[<-|[]]]; [now left|].
    right. exists org. pose proof (trim_clean name) as [Hfirst Hlast]. now repeat split. }
  destruct os as [|[f|e] os]; simpl; rewrite ?play_Return; simpl; exact Hcalls.
Qed.

(** X15.  With the organisation resolved and the Create button enabled, a
    click issues the insert and the button is disabled while the request is
    in flight.  When the insert is served the flag is down again and the
    button stays disabled, the input being empty; when it is refused the
    button is enabled again, with the same name in the input. *)
Theorem createProject_and_the_button
    (profile : option Profile) (org : string) (o : Outcome) (w : World) :
  truthy (profile ≫= org_id) = Some org ->
  createDisabled profile (ui w) = false ->
  let click := createProject profile (newName (ui w)) in
  let flying := fst (launch click [] w) in
  let landed := after click [o] w in
  calls flying = calls w ++ [InsertProject org (trim (newName (ui w))) true] /\
  busy (ui flying) = true /\
  createDisabled profile (ui flying) = true /\
  busy (ui landed) = false /\
  createDisabled profile (ui landed)
  = match o with Served _ => true | Refused _ => false end.
Proof.
  intros Horg Hen. unfold createDisabled in Hen.
  apply orb_false_iff in Hen as [Hen Hname]. apply orb_false_iff in Hen as [Hpriv Hbusy].
  apply negb_false_iff in Hpriv.
  unfold after, run, launch, createProject, createDisabled.
  rewrite Horg, Hpriv, Hname. simpl.
  split; [reflexivity|]. split; [reflexivity|]. split; [reflexivity|].
  destruct o as [f|e]; simpl; [now split|]. now rewrite Hname.
Qed.
End Creating.

Lemma createProject_inserts_clean_name_witness :
  exists org,
    InsertProject "org" "Gamma" true = InsertProject org (trim "  Gamma ") true /\
    truthy (Scenario.viewerA ≫= org_id) = Some org.
Proof.
  destruct (createProject_inserts_clean_name Scenario.viewerA "  Gamma " [Served "P3"]
              Scenario.settled (InsertProject "org" "Gamma" true)) as [[]|(org & Hq & Horg & _)].
  - left. reflexivity.
  - exists org. now split.
Defined.

Lemma createProject_and_the_button_witness :
  createDisabled Scenario.viewerA Scenario.loaded = false /\
  createDisabled Scenario.viewerA
    (ui (fst (launch (createProject Scenario.viewerA "Gamma") [] Scenario.settled))) = true /\
  createDisabled Scenario.viewerA
    (ui (after (createProject Scenario.viewerA "Gamma") [Refused "denied"] Scenario.settled))
  = false.
Proof.
  split; [reflexivity|].
  destruct (createProject_and_the_button Scenario.viewerA "org" (Refused "denied")
              Scenario.settled eq_refl eq_refl) as (_ & _ & Hflying & _ & Hlanded).
  split; [exact Hflying|exact Hlanded].
Defined.

(** ** Creation and the order of the list *)

Lemma sort_by_snoc_sorted {A} (le : A -> A -> bool) (x : A) (l : list A) :
  transitive le -> Sorted (fun a b => le a b = true) l ->
  sort_by le (l ++ [x]) = place le x l.
Proof.
  intros Htrans. induction l as [|a l IH]; intros Hs; [reflexivity|].
  apply Sorted_inv in Hs as [Hs Hhd]. simpl. rewrite IH by assumption.
  destruct l as [|b l]; simpl.
  - destruct (le a x); reflexivity.
  - apply HdRel_inv in Hhd. destruct (le b x) eqn:Hbx; simpl.
    + rewrite Hhd. now rewrite (Htrans a b x).
    + destruct (le a x); [reflexivity|]. now rewrite Hhd.
Qed.

Lemma place_sublist {A} (le : A -> A -> bool) (x : A) (l : list A) :
  sublist l (place le x l).
Proof.
  induction l as [|a l IH]; simpl; [constructor; constructor|].
  destruct (le a x); now constructor.
Qed.

Section Ordered.
Context {host : Host}.

(** X16.  When the project list on the page is in order of name and the
    comparison of names chains, a served creation leaves every project
    where it was and puts the new one behind the leading projects whose
    names are not greater. *)
Theorem createProject_keeps_order
    (profile : option Profile) (org name fresh : string) (w : World) :
  truthy (profile ≫= org_id) = Some org ->
  isAdminOrManager profile = true ->
  whitespaceOnly name = false ->
  transitive (fun a b => (localeCompare a b <=? 0)%Z) ->
  Sorted (fun a b => (byName a b <=? 0)%Z = true) (projects (ui w)) ->
  let w' := after (createProject profile name) [Served fresh] w in
  let row := ProjectRow.mk fresh org (trim name) None (Some true) in
  projects (ui w') = place (fun a b => (byName a b <=? 0)%Z) row (projects (ui w)) /\
  sublist (projects (ui w)) (projects (ui w')).
Proof.
  intros Horg Hpriv Hname Htrans Hsorted.
  assert (String.eqb (trim name) "" = false) as Hne.
  { apply String.eqb_neq. rewrite trim_empty. congruence. }
  assert (projects (ui (after (createProject profile name) [Served fresh] w))
          = place (fun a b => (byName a b <=? 0)%Z)
              (ProjectRow.mk fresh org (trim name) None (Some true)) (projects (ui w))) as Hplace.
  { unfold after, run, launch, createProject. rewrite Horg, Hpriv, Hne. simpl.
    unfold js_sort. apply sort_by_snoc_sorted; [|assumption].
    intros a b c. apply Htrans. }
  cbv zeta. rewrite Hplace. split; [reflexivity|apply place_sublist].
Qed.

(** X17.  A project that has just been created is on the list of the next
    privileged resolution for the same organisation. *)
Theorem created_project_is_listed
    (profile : option Profile) (org name fresh uid g : string) (o1 : Outcome) (w : World) :
  truthy (profile ≫= org_id) = Some org ->
  isAdminOrManager profile = true ->
  whitespaceOnly name = false ->
  let w1 := after (createProject profile name) [Served fresh] w in
  let w2 := after (resolveVisibility org uid true) [o1; Served g] w1 in
  In (ProjectRow.mk fresh org (trim name) None (Some true)) (projects (ui w2)).
Proof.
  intros Horg Hpriv Hname.
  assert (String.eqb (trim name) "" = false) as Hne.
  { apply String.eqb_neq. rewrite trim_empty. congruence. }
  cbv zeta.
  assert (forall w1, projects (ui (after (resolveVisibility org uid true) [o1; Served g] w1))
                     = select_projects org (db w1)) as ->.
  { intros w1. unfold after, run, launch. destruct o1; reflexivity. }
  apply select_projects_In. split; [|reflexivity].
  unfold after, run, launch, createProject. rewrite Horg, Hpriv, Hne. simpl.
  apply in_app_iff. right. now left.
Qed.

Lemma contractor_projects_In (org uid g : string) (o1 : Outcome) (w : World) (p : ProjectRow.t) :
  In p (projects (ui (after (resolveVisibility org uid false) [o1; Served g] w))) <->
  (exists m, In m (map snd (Store.project_members (db w))) /\
             MemberRow.profile_id m = uid /\ MemberRow.is_active m = Some true /\
             List.find (fun x => String.eqb (ProjectRow.id x) (MemberRow.project_id m))
               (Store.projects (db w)) = Some p) /\
  ProjectRow.is_active p <> Some false.
Proof.
  assert (projects (ui (after (resolveVisibility org uid false) [o1; Served g] w))
          = List.filter (fun p => not_false (ProjectRow.is_active p))
              (omap JoinedRow.projects (select_member_projects uid (db w)))) as ->.
  { unfold after, run, launch. destruct o1; reflexivity. }
  unfold select_member_projects. rewrite omap_map, filter_In, In_omap, not_false_iff.
  split.
  - intros [(m & Hm & Hjoin) Hact]. split; [|assumption].
    apply filter_In in Hm as [Hm Hc]. apply andb_true_iff in Hc as [Hu Ha].
    apply String.eqb_eq in Hu. exists m. repeat split; try assumption.
    destruct (MemberRow.is_active m) as [[]|]; simpl in Ha; congruence.
  - intros [(m & Hm & Hu & Ha & Hjoin) Hact]. split; [|assumption].
    exists m. split; [|assumption]. apply filter_In. split; [assumption|].
    now rewrite Hu, Ha, String.eqb_refl.
Qed.

(** X18.  Adding a profile to a project lets that profile see the project:
    once the insert is served, a contractor resolution for the profile
    lists the project the id points to, unless the project is inactive. *)
Theorem added_member_sees_project
    (profile : option Profile) (projectId profileId f org g : string)
    (o o1 : Outcome) (w : World) (p : ProjectRow.t) :
  profileId <> "" ->
  List.find (fun x => String.eqb (ProjectRow.id x) projectId) (Store.projects (db w)) = Some p ->
  ProjectRow.is_active p <> Some false ->
  let w1 := after (addMember profile projectId profileId) [Served f; o] w in
  let w2 := after (resolveVisibility org profileId false) [o1; Served g] w1 in
  In p (projects (ui w2)).
Proof.
  intros Hne Hfind Hact. apply String.eqb_neq in Hne. cbv zeta.
  apply contractor_projects_In. split; [|assumption].
  exists (MemberRow.mk f projectId profileId (Some true)).
  assert (db (after (addMember profile projectId profileId) [Served f; o] w)
          = insert_member f (profile ≫= org_id) projectId profileId true (db w)) as ->.
  { unfold after, run, launch, addMember. simpl. rewrite Hne. destruct o; reflexivity. }
  simpl. rewrite map_app, in_app_iff. simpl. auto.
Qed.

Lemma active_after_update (memberId : string) (s : Store.t) (m : MemberRow.t) :
  In m (map snd (Store.project_members (update_member_active memberId false s))) ->
  MemberRow.is_active m = Some true ->
  MemberRow.id m <> memberId /\ exists org, In (org, m) (Store.project_members s).
Proof.
  unfold update_member_active; simpl. rewrite map_map. intros Hin Hact.
  apply in_map_iff in Hin as ([org m0] & Hm & Hr). simpl in Hm.
  destruct (String.eqb_spec (MemberRow.id m0) memberId) as [Heq|Hneq].
  - subst m. simpl in Hact. discriminate.
  - simpl in Hm. subst m0. split; [assumption|now exists org].
Qed.

(** X19.  Removing a member takes the project out of the member's sight:
    once the update is served, a contractor resolution for the profile no
    longer lists a project for which the removed row was the profile's only
    active membership. *)
Theorem removed_member_loses_project
    (projectId memberId uid f org g : string) (o o1 : Outcome) (w : World) (p : ProjectRow.t) :
  (forall org0 m, In (org0, m) (Store.project_members (db w)) ->
     MemberRow.profile_id m = uid -> MemberRow.is_active m = Some true ->
     List.find (fun x => String.eqb (ProjectRow.id x) (MemberRow.project_id m))
       (Store.projects (db w)) = Some p ->
     MemberRow.id m = memberId) ->
  let w1 := after (removeMember projectId memberId) [Served f; o] w in
  let w2 := after (resolveVisibility org uid false) [o1; Served g] w1 in
  ~ In p (projects (ui w2)).
Proof.
  intros Honly. cbv zeta. rewrite contractor_projects_In.
  assert (db (after (removeMember projectId memberId) [Served f; o] w)
          = update_member_active memberId false (db w)) as ->.
  { unfold after, run, launch. destruct o; reflexivity. }
  intros [(m & Hm & Hu & Ha & Hjoin) _].
  apply active_after_update in Hm as [Hid (org0 & Hrow)]; [|assumption].
  apply Hid. now apply (Honly org0 m).
Qed.
End Ordered.

Lemma codeUnit_names_chain :
  transitive (fun a b => (@localeCompare codeUnitHost a b <=? 0)%Z).
Proof.
  assert (forall a b, (@localeCompare codeUnitHost a b <=? 0)%Z = true <-> String.le a b) as Hle.
  { intros a b. unfold String.le, String.leb. simpl.
    destruct (String.compare a b); simpl; split; intros H;
      try exact I; try reflexivity; try discriminate H; destruct H. }
  intros a b c Hab Hbc. apply Hle. apply Hle in Hab, Hbc.
  now transitivity b.
Qed.

Lemma createProject_keeps_order_witness :
  projects (ui (after (createProject Scenario.viewerA "Alpine") [Served "P3"] Scenario.settled))
  = [Scenario.P1; ProjectRow.mk "P3" "org" "Alpine" None (Some true); Scenario.P2].
Proof.
  destruct (createProject_keeps_order Scenario.viewerA "org" "Alpine" "P3" Scenario.settled)
    as [Hplace _].
  - reflexivity.
  - reflexivity.
  - reflexivity.
  - exact codeUnit_names_chain.
  - repeat constructor.
  - rewrite Hplace. reflexivity.
Defined.

Lemma created_project_is_listed_witness :
  In (ProjectRow.mk "P3" "org" "Gamma" None (Some true))
     (projects (ui (after (resolveVisibility "org" "A" true) [Served "x"; Served "y"]
                      (after (createProject Scenario.viewerA "Gamma") [Served "P3"]
                         Scenario.settled)))).
Proof.
  apply (created_project_is_listed Scenario.viewerA "org" "Gamma" "P3" "A" "y" (Served "x")
           Scenario.settled); reflexivity.
Defined.

Lemma added_member_sees_project_witness :
  In Scenario.P2
     (projects (ui (after (resolveVisibility "org" "C" false) [Served "x"; Served "y"]
                      (after (addMember Scenario.viewerA "P2" "C") [Served "m2"; Served "z"]
                         Scenario.settled)))).
Proof.
  apply (added_member_sees_project Scenario.viewerA "P2" "C" "m2" "org" "y"
           (Served "z") (Served "x") Scenario.settled Scenario.P2).
  - discriminate.
  - reflexivity.
  - discriminate.
Defined.

Lemma removed_member_loses_project_witness :
  In Scenario.P1
     (projects (ui (after (resolveVisibility "org" "B" false) [Served "x"; Served "y"]
                      Scenario.settled))) /\
  ~ In Scenario.P1
      (projects (ui (after (resolveVisibility "org" "B" false) [Served "x"; Served "y"]
                       (after (removeMember "P1" "m1") [Served "u"; Served "v"]
                          Scenario.settled)))).
Proof.
  split; [vm_compute; auto|].
  apply (removed_member_loses_project "P1" "m1" "B" "u" "org" "y" (Served "v") (Served "x")
           Scenario.settled Scenario.P1).
  intros org0 m [[= <- <-]|[]] _ _ _. reflexivity.
Defined.

(** ** Names on the page *)

Lemma orElse_not_blank (a : option string) (b : string) : b <> "" -> orElse a b <> "".
Proof.
  intros Hb. unfold orElse, truthy. destruct a as [s|]; [|assumption].
  destruct (String.eqb_spec s ""); assumption.
Qed.

Lemma slice0_length (n : nat) (s : string) :
  String.length (slice0 n s) = Nat.min n (String.length s).
Proof.
  revert s. induction n as [|n IH]; intros [|c s]; simpl; auto.
Qed.

Lemma slice0_prefix (n : nat) (s : string) : String.prefix (slice0 n s) s = true.
Proof.
  revert s. induction n as [|n IH]; intros [|c s]; simpl; auto.
  destruct (ascii_dec c c); [apply IH|congruence].
Qed.

Lemma slice0_short (n : nat) (s : string) : String.length s <= n -> slice0 n s = s.
Proof.
  revert s. induction n as [|n IH]; intros [|c s]; simpl; intros Hle; auto; try lia.
  f_equal. apply IH. lia.
Qed.

(** X20.  The name in an option of the member picker is the full name,
    or the id when the full name is null or empty, cut after 45 code
    units: never longer than 45, a prefix of the uncut name, the uncut name
    itself when that is short enough, and never empty for a profile with an
    id. *)
Theorem optionName_bounded (u : ProfileRow.t) :
  let full := orElse (ProfileRow.full_name u) (ProfileRow.id u) in
  String.length (optionName u) <= 45 /\
  String.prefix (optionName u) full = true /\
  (String.length full <= 45 -> optionName u = full) /\
  (ProfileRow.id u <> "" -> optionName u <> "").
Proof.
  unfold optionName. cbv zeta.
  split; [rewrite slice0_length; lia|].
  split; [apply slice0_prefix|].
  split; [apply slice0_short|].
  intros Hid. pose proof (orElse_not_blank (ProfileRow.full_name u) _ Hid) as Hfull.
  destruct (orElse (ProfileRow.full_name u) (ProfileRow.id u)); [contradiction|discriminate].
Qed.

Lemma find_id_none {A} (key : A -> string) (k : string) (l : list A) :
  (forall x, In x l -> key x <> k) -> List.find (fun x => String.eqb (key x) k) l = None.
Proof.
  intros Hno. destruct (List.find _ l) as [x|] eqn:Hfind; [|reflexivity].
  apply find_some in Hfind as [Hin Heq]. apply String.eqb_eq in Heq. now apply Hno in Hin.
Qed.

(** X21.  The name on a member's line is never empty when the row has a
    profile id: it is the full name of the profile's directory entry, and
    the raw profile id when the directory has no entry for the profile or
    the entry has no name. *)
Theorem memberName_falls_back (s : PageState) (m : MemberRow.t) :
  (MemberRow.profile_id m <> "" -> memberName s m <> "") /\
  ((forall x, In x (orgProfiles s) -> ProfileRow.id x <> MemberRow.profile_id m) ->
   memberName s m = MemberRow.profile_id m) /\
  (forall u, List.find (fun x => String.eqb (ProfileRow.id x) (MemberRow.profile_id m))
               (orgProfiles s) = Some u ->
     (truthy (ProfileRow.full_name u) = None -> memberName s m = MemberRow.profile_id m) /\
     (forall n, truthy (ProfileRow.full_name u) = Some n -> memberName s m = n)).
Proof.
  unfold memberName. split; [apply orElse_not_blank|]. split.
  - intros Hno. now rewrite (find_id_none ProfileRow.id) by assumption.
  - intros u ->. unfold orElse. simpl. split; [now intros ->|now intros n ->].
Qed.

(** X22.  A focus that names nobody in the directory empties the picker of
    every project, and the header shows the focus id as it came. *)
Theorem unknown_focus_offers_nobody (s : PageState) (focusUser : string) (p : ProjectRow.t) :
  focusUser <> "" ->
  (forall x, In x (orgProfiles s) -> ProfileRow.id x <> focusUser) ->
  candidatePeople s focusUser p = Value [] /\
  focusHeaderName s focusUser = focusUser.
Proof.
  intros Hfocus Hno. split.
  - unfold candidatePeople.
    destruct (List.filter _ (List.filter _ (orgProfiles s))) as [|x l] eqn:Hc; [reflexivity|].
    assert (In x (x :: l)) as Hx by now left.
    rewrite <- Hc in Hx. apply filter_In in Hx as [Hx Hid].
    apply filter_In in Hx as [Hx _].
    apply String.eqb_neq in Hfocus. rewrite Hfocus in Hid.
    apply String.eqb_eq in Hid. now apply Hno in Hx.
  - unfold focusHeaderName, focusProfileName.
    apply String.eqb_neq in Hfocus. rewrite Hfocus.
    now rewrite (find_id_none ProfileRow.id) by assumption.
Qed.

Lemma memberName_falls_back_witness :
  memberName Scenario.loaded Scenario.BP1 = "Bo" /\
  memberName Scenario.loaded (MemberRow.mk "m7" "P1" "Z" (Some true)) = "Z".
Proof.
  destruct (memberName_falls_back Scenario.loaded Scenario.BP1) as (_ & _ & Hknown).
  destruct (Hknown Scenario.B eq_refl) as [_ Hname].
  split; [apply Hname; reflexivity|].
  destruct (memberName_falls_back Scenario.loaded (MemberRow.mk "m7" "P1" "Z" (Some true)))
    as (_ & Hunknown & _).
  apply Hunknown. intros x [<-|[<-|[<-|[]]]]; discriminate.
Defined.

Lemma optionName_bounded_witness :
  optionName
    (ProfileRow.mk "Q" (Some "The quick brown fox jumps over the lazy dog, twice over") contractor
       (Some true) None)
  = "The quick brown fox jumps over the lazy dog, " /\
  optionName (ProfileRow.mk "Q" (Some "") contractor (Some true) None) = "Q".
Proof.
  split; [reflexivity|].
  destruct (optionName_bounded (ProfileRow.mk "Q" (Some "") contractor (Some true) None))
    as (_ & _ & Hshort & _).
  apply Hshort. simpl. lia.
Defined.

Lemma unknown_focus_offers_nobody_witness :
  candidatePeople Scenario.loaded "Z" Scenario.P2 = Value [] /\
  focusHeaderName Scenario.loaded "Z" = "Z".
Proof.
  apply unknown_focus_offers_nobody; [discriminate|].
  intros x [<-|[<-|[<-|[]]]]; discriminate.
Defined.

(** ** The page over time *)

Section Pages.
Context {host : Host}.

Lemma runEffect_anchored
    (profile : option Profile) (userId : option string) (w : World) (ts : list Task) :
  anchored (runEffect profile userId w ts).
Proof.
  unfold runEffect, anchored.
  destruct (visibilityEffect profile userId) as [p|] eqn:Heff; [|discriminate].
  destruct (advance false p w) as [w' p']. simpl. intros i [= <-].
  split; [rewrite length_app; simpl; lia|].
  unfold visibilityEffect in Heff.
  destruct (truthy (profile ≫= org_id)); [|discriminate].
  destruct (truthy userId); [|discriminate]. now split.
Qed.

Lemma act_anchored (a : Action) (pg : Page) : anchored pg -> anchored (act a pg).
Proof.
  intros Hpg.
  assert (forall p, anchored (invoke p pg)) as Hinvoke.
  { intros p. unfold invoke. destruct (advance false p (world pg)) as [w' p'].
    intros i Hi. simpl in *. destruct (Hpg i Hi) as (Hlt & Horg & Huid).
    rewrite length_app. simpl. split; [lia|now split]. }
  destruct a as [pr' uid'|j o|v| |projectId|projectId profileId|projectId memberId];
    simpl; try apply Hinvoke.
  - unfold render. destruct (decide _) as [Heq|_]; [|apply runEffect_anchored].
    unfold depsOf in Heq. injection Heq as Horg Huid _.
    intros i Hi. simpl in *. rewrite Horg, Huid. now apply Hpg.
  - unfold deliver. destruct (tasks pg !! j) as [t|]; [|assumption].
    destruct (resume (cancelled t) o (cont t) (world pg)) as [w' p'].
    intros i Hi. simpl in *. rewrite length_insert. now apply Hpg.
  - exact Hpg.
  - destruct (String.eqb profileId ""); [assumption|apply Hinvoke].
Qed.

Lemma acts_anchored (l : list Action) (pg : Page) : anchored pg -> anchored (acts l pg).
Proof.
  revert pg. induction l as [|a l IH]; intros pg Hpg; simpl; [assumption|].
  apply IH. now apply act_anchored.
Qed.

Lemma mount_anchored (profile : option Profile) (userId : option string) (w : World) :
  anchored (mount profile userId w).
Proof. apply runEffect_anchored. Qed.





(** X24.  When the viewer's organisation or user id goes away while a
    resolution is registered, the render cancels that resolution and starts
    none: the page has no current effect, nothing is requested, and state
    and store are untouched. *)
Theorem losing_identity_cancels_resolution
    (profile0 : option Profile) (userId0 : option string) (w0 : World)
    (before : list Action) (profile' : option Profile) (userId' : option string) (i : nat) :
  let pg := acts before (mount profile0 userId0 w0) in
  effect pg = Some i ->
  truthy (profile' ≫= org_id) = None \/ truthy userId' = None ->
  let pg' := render profile' userId' pg in
  effect pg' = None /\
  superseded i pg' /\
  world pg' = world pg /\
  length (tasks pg') = length (tasks pg).
Proof.
  intros pg Heff Hgone pg'.
  assert (anchored pg) as Hpg by apply acts_anchored, mount_anchored.
  destruct (Hpg i Heff) as (Hlt & Horg & Huid).
  assert (visibilityEffect profile' userId' = None) as Hnone.
  { unfold visibilityEffect. destruct Hgone as [-> | ->]; [reflexivity|].
    now destruct (truthy (profile' ≫= org_id)). }
  unfold pg', render. destruct (decide _) as [Heq|_].
  - unfold depsOf in Heq. injection Heq as Ho Hu _. rewrite Ho, Hu in Hgone.
    destruct Hgone; contradiction.
  - unfold runEffect, superseded. rewrite Hnone, Heff. cbn [effect tasks world cleanup].
    split; [reflexivity|]. split; [|split; [reflexivity|apply length_alter]].
    apply lookup_lt_is_Some in Hlt as [t Ht].
    exists (mkTask true (cont t)). now rewrite list_lookup_alter_eq, Ht.
Qed.
End Pages.

Lemma losing_identity_cancels_resolution_witness :
  let pg' := render None None (mount Scenario.viewerB (Some "B") Scenario.fresh) in
  effect pg' = None /\
  projects (ui (world (acts [Deliver 0 (Served "x"); Deliver 0 (Served "y")] pg'))) = [].
Proof.
  destruct (losing_identity_cancels_resolution Scenario.viewerB (Some "B") Scenario.fresh []
              None None 0 eq_refl (or_introl eq_refl)) as [Heff _].
  split; [exact Heff|reflexivity].
Defined.

